(** * fastcrud: the CRUD dispatcher of [fastcrud/core.py]

    A shallow embedding of [BaseCrudModel], [BaseCrud] and [CRUDRouter].
    Python objects are dynamic values, exceptions are an error result and the
    storage backend is an explicit state that survives a raised exception. *)

From Stdlib Require Import ZArith List String Ascii Lia Bool.
From stdpp Require Import base gmap strings list fin_maps.
Import ListNotations.

Local Open Scope Z_scope.
Local Open Scope string_scope.
Local Open Scope list_scope.

(** ** Python values *)

(** [uuid.UUID] is carried by its 128-bit integer ([UUID.int]); a [datetime]
    by its microseconds since the epoch. *)
Definition UUID := Z.
Definition datetime := Z.

(** [UUID.variant] is RFC 4122 when bit 63 of the integer is set and bit 62
    is clear. *)
Definition uuid_rfc_4122 (u : UUID) : bool :=
  Z.testbit u 63 && negb (Z.testbit u 62).

(** [UUID.version]: bits 76..79 of the integer for a UUID of the RFC 4122
    variant, [None] for any other variant. *)
Definition uuid_version (u : UUID) : option Z :=
  if uuid_rfc_4122 u then Some (Z.land (Z.shiftr u 76) 15) else None.

(** The three implicit fields of [class BaseCrudModel(pydantic.BaseModel)]. *)
Record BaseCrudModel := {
  uid : UUID;
  created_on : datetime;
  modify_on : datetime
}.

(** A [str] whose characters are looked at is carried by its code points. *)
Definition pystr := list N.

(** The code points of an ASCII literal. *)
Definition codepoints (s : string) : pystr :=
  map (fun c => N.of_nat (nat_of_ascii c)) (list_ascii_of_string s).

(** A class object, as far as the code looks at it: [cls.__name__]. *)
Record pyclass := { __name__ : pystr }.

(** An instance of a caller-defined subclass of [BaseCrudModel]: the implicit
    fields and the fields of the caller's schema. *)
Record instance := {
  class_of : pyclass;
  base : BaseCrudModel;
  fields : list (string * string)
}.

#[warnings="-register-all"]
Inductive value :=
| VNone
| VStr (s : string)
| VUuid (u : UUID)
| VTime (t : datetime)
| VObj (o : instance)
| VTuple (l : list value)
| VList (l : list value).

(** ** Exceptions *)

Inductive type_error :=
| missing_arguments (fname : string) (names : list string)
| too_many_arguments (fname : string) (given : nat)
| not_iterable.

Inductive exn :=
| NotFound
| Conflict
| InvalidOperator
| BackendUnavailable
| TypeError (why : type_error)
| AttributeError (attr : string)
| ValidationError (field : string)
| Exception (msg : string).

Definition result (A : Type) : Type := (exn + A)%type.

(** Binding positional arguments to the parameters of a [def]: the error
    raised when the call supplies [args] to a function whose required
    parameters are [required] (the caller has matched the accepted arities
    already). *)
Definition arity_error (fname : string) (required : list string)
    (args : list value) : exn :=
  if (length args <? length required)%nat
  then TypeError (missing_arguments fname (drop (length args) required))
  else TypeError (too_many_arguments fname (length args)).

(** [iter(v)]: a list or a tuple yields its items, a [str] its characters, a
    pydantic model its (name, value) pairs, the implicit fields first;
    anything else is not iterable. *)
Definition py_iter (v : value) : result (list value) :=
  match v with
  | VList l => inr l
  | VTuple l => inr l
  | VStr s =>
      inr (map (fun c => VStr (String c EmptyString)) (list_ascii_of_string s))
  | VObj o =>
      inr ([VTuple [VStr "uid"; VUuid (uid (base o))];
            VTuple [VStr "created_on"; VTime (created_on (base o))];
            VTuple [VStr "modify_on"; VTime (modify_on (base o))]]
           ++ map (fun kv => VTuple [VStr (fst kv); VStr (snd kv)]) (fields o))
  | _ => inl (TypeError not_iterable)
  end.

(** The Unicode database of the Python runtime, as far as [str.lower] reads
    it: the full lowercase mapping of a code point (one to three code
    points), and the properties Cased and Case_Ignorable. *)
Record unicode := {
  to_lower_full : N -> list N;
  is_cased : N -> bool;
  is_case_ignorable : N -> bool
}.

Fixpoint skip_ignorable (u : unicode) (s : pystr) : pystr :=
  match s with
  | [] => []
  | c :: s' => if is_case_ignorable u c then skip_ignorable u s' else s
  end.

(** The Final_Sigma context of a capital sigma: [before] holds the code
    points that precede it, the nearest first, [after] those that follow it.
    Skipping case-ignorable code points, a cased one comes before and none
    comes after. *)
Definition final_sigma (u : unicode) (before after : pystr) : bool :=
  match skip_ignorable u before with
  | c :: _ =>
      is_cased u c
      && match skip_ignorable u after with
         | [] => true
         | c' :: _ => negb (is_cased u c')
         end
  | [] => false
  end.

(** [str.lower]: every code point is replaced by its full lowercase
    mapping; capital sigma (U+03A3) becomes final sigma (U+03C2) in the
    Final_Sigma context and small sigma (U+03C3) elsewhere. *)
Fixpoint lower_from (u : unicode) (before s : pystr) : pystr :=
  match s with
  | [] => []
  | c :: rest =>
      (if (c =? 0x3A3)%N
       then [if final_sigma u before rest then 0x3C2%N else 0x3C3%N]
       else to_lower_full u c)
      ++ lower_from u (c :: before) rest
  end.

Definition str_lower (u : unicode) (s : pystr) : pystr := lower_from u [] s.

(** ** The storage backend and the world a dispatcher call runs in *)

Inductive method := m_get | m_get_many | m_create | m_put | m_patch | m_delete.

(** One call of a backend method: what was passed and how it ended. *)
Record call := {
  c_method : method;
  c_args : list value;
  c_outcome : result value
}.

Module BaseStorage.
(** [fastcrud.storage.BaseStorage]: the methods the dispatcher and the
    router reach, over the backend's own state [St].  A method that raises
    still returns the state it left behind. *)
Record t (St : Type) := Build {
  get : list value -> St -> St * result value;
  get_many : list value -> St -> St * result value;
  create : list value -> St -> St * result value;
  put : list value -> St -> St * result value;
  patch : list value -> St -> St * result value;
  delete : list value -> St -> St * result value;
  start : St -> St * result value;
  stop : St -> St * result value
}.
Arguments Build {St}.
Arguments get {St}.
Arguments get_many {St}.
Arguments create {St}.
Arguments put {St}.
Arguments patch {St}.
Arguments delete {St}.
Arguments start {St}.
Arguments stop {St}.

(** Attribute lookup [storage.<m>]. *)
Definition attr {St} (sto : t St) (m : method)
    : list value -> St -> St * result value :=
  match m with
  | m_get => get sto
  | m_get_many => get_many sto
  | m_create => create sto
  | m_put => put sto
  | m_patch => patch sto
  | m_delete => delete sto
  end.
End BaseStorage.

(** The attributes [BaseCrud.__init__] stores on [self] (lines 20-21). *)
Record crud_fields (St : Type) := {
  model : option pyclass;
  storage : BaseStorage.t St
}.
Arguments model {St}.
Arguments storage {St}.

(** Everything a dispatcher call can read or write: the dispatcher object,
    the backend's collection, and the backend calls made so far. *)
Record world (St : Type) := {
  self : crud_fields St;
  store : St;
  calls : list call
}.
Arguments self {St}.
Arguments store {St}.
Arguments calls {St}.

(** ** Computations that may raise *)

Definition M (St A : Type) : Type := world St -> world St * result A.

Definition ret {St A} (a : A) : M St A := fun w => (w, inr a).
Definition raise {St A} (e : exn) : M St A := fun w => (w, inl e).
Definition bind {St A B} (m : M St A) (k : A -> M St B) : M St B :=
  fun w =>
    match m w with
    | (w', inr a) => k a w'
    | (w', inl e) => (w', inl e)
    end.
Definition lift {St A} (r : result A) : M St A := fun w => (w, r).

Notation "x <~ m ;; k" := (bind m (fun x => k))
  (at level 100, m at next level, right associativity).

Definition pyfun (St : Type) : Type := list value -> M St value.

(** [[await f(x) for x in xs]]: items are awaited one after the other, in the
    order of [xs]; the first exception leaves the comprehension. *)
Fixpoint comprehension {St} (f : value -> M St value) (xs : list value)
    : M St (list value) :=
  match xs with
  | [] => ret []
  | x :: xs' =>
      r <~ f x ;;
      rs <~ comprehension f xs' ;;
      ret (r :: rs)
  end.

(** ** [class BaseCrud] *)

Module BaseCrud.
Section Dispatcher.
Context {St : Type}.

(** Calling the bound method [self.storage.<m>] with [args]: the backend
    runs on its collection, and the call is recorded. *)
Definition storage_call (m : method) : pyfun St := fun args w =>
  let '(s', r) := BaseStorage.attr (storage (self w)) m args (store w) in
  ({| self := self w;
      store := s';
      calls := calls w ++ [{| c_method := m; c_args := args; c_outcome := r |}] |},
   r).

(** Modelled from the spec: [fastcrud.utils.run_async_or_sync], which is not
    among the sources.  Section 4.1: the dispatcher adapts a synchronous or
    an asynchronous callee into one asynchronous contract, so awaiting
    [run_async_or_sync] of [f] and its arguments is the call of [f] on
    those arguments, awaited when [f] is asynchronous. *)
Definition run_async_or_sync (f : pyfun St) (args : list value) : M St value :=
  f args.

(** Lines 98-99. *)
Definition _get : pyfun St := fun args =>
  match args with
  | [uid] => run_async_or_sync (storage_call m_get) [uid]
  | _ => raise (arity_error "_get" ["uid"] args)
  end.

(** Lines 101-104; [opr] defaults to ["eq"]. *)
Definition _get_many : pyfun St := fun args =>
  match args with
  | [field; val] =>
      run_async_or_sync (storage_call m_get_many) [field; val; VStr "eq"]
  | [field; val; opr] =>
      run_async_or_sync (storage_call m_get_many) [field; val; opr]
  | _ => raise (arity_error "_get_many" ["field"; "value"] args)
  end.

(** Lines 106-107. *)
Definition _create : pyfun St := fun args =>
  match args with
  | [obj] => run_async_or_sync (storage_call m_create) [obj]
  | _ => raise (arity_error "_create" ["obj"] args)
  end.

(** Lines 109-110. *)
Definition _create_many : pyfun St := fun args =>
  match args with
  | [objs] =>
      xs <~ lift (py_iter objs) ;;
      rs <~ comprehension (fun obj => _create [obj]) xs ;;
      ret (VList rs)
  | _ => raise (arity_error "_create_many" ["objs"] args)
  end.

(** Lines 112-113. *)
Definition _put : pyfun St := fun args =>
  match args with
  | [uid; obj] => run_async_or_sync (storage_call m_put) [uid; obj]
  | _ => raise (arity_error "_put" ["uid"; "obj"] args)
  end.

(** Lines 115-116: [self._put(obj)], one positional argument. *)
Definition _put_many : pyfun St := fun args =>
  match args with
  | [objs] =>
      xs <~ lift (py_iter objs) ;;
      rs <~ comprehension (fun obj => _put [obj]) xs ;;
      ret (VList rs)
  | _ => raise (arity_error "_put_many" ["objs"] args)
  end.

(** Lines 118-119. *)
Definition _patch : pyfun St := fun args =>
  match args with
  | [uid; obj] => run_async_or_sync (storage_call m_patch) [uid; obj]
  | _ => raise (arity_error "_patch" ["uid"; "obj"] args)
  end.

(** Lines 121-122: [self._patch(obj)], one positional argument. *)
Definition _patch_many : pyfun St := fun args =>
  match args with
  | [objs] =>
      xs <~ lift (py_iter objs) ;;
      rs <~ comprehension (fun obj => _patch [obj]) xs ;;
      ret (VList rs)
  | _ => raise (arity_error "_patch_many" ["objs"] args)
  end.

(** Lines 124-125. *)
Definition _delete : pyfun St := fun args =>
  match args with
  | [uid] => run_async_or_sync (storage_call m_delete) [uid]
  | _ => raise (arity_error "_delete" ["uid"] args)
  end.

(** Lines 127-128. *)
Definition _delete_many : pyfun St := fun args =>
  match args with
  | [uids] =>
      xs <~ lift (py_iter uids) ;;
      rs <~ comprehension (fun uid => _delete [uid]) xs ;;
      ret (VList rs)
  | _ => raise (arity_error "_delete_many" ["uids"] args)
  end.

(** The closures of [__init__] (lines 23-86). *)
Definition get : pyfun St := fun args =>
  match args with
  | [uid] => run_async_or_sync _get [uid]
  | _ => raise (arity_error "get" ["uid"] args)
  end.

Definition get_many : pyfun St := fun args =>
  match args with
  | [field; val] => run_async_or_sync _get_many [field; val; VStr "eq"]
  | [field; val; opr] => run_async_or_sync _get_many [field; val; opr]
  | _ => raise (arity_error "get_many" ["field"; "value"] args)
  end.

Definition create : pyfun St := fun args =>
  match args with
  | [obj] => run_async_or_sync _create [obj]
  | _ => raise (arity_error "create" ["obj"] args)
  end.

Definition create_many : pyfun St := fun args =>
  match args with
  | [objs] => run_async_or_sync _create_many [objs]
  | _ => raise (arity_error "create_many" ["objs"] args)
  end.

Definition put : pyfun St := fun args =>
  match args with
  | [uid; obj] => run_async_or_sync _put [uid; obj]
  | _ => raise (arity_error "put" ["uid"; "obj"] args)
  end.

Definition put_many : pyfun St := fun args =>
  match args with
  | [objs] => run_async_or_sync _put_many [objs]
  | _ => raise (arity_error "put_many" ["objs"] args)
  end.

Definition patch : pyfun St := fun args =>
  match args with
  | [uid; obj] => run_async_or_sync _patch [uid; obj]
  | _ => raise (arity_error "patch" ["uid"; "obj"] args)
  end.

Definition patch_many : pyfun St := fun args =>
  match args with
  | [objs] => run_async_or_sync _patch_many [objs]
  | _ => raise (arity_error "patch_many" ["objs"] args)
  end.

Definition delete : pyfun St := fun args =>
  match args with
  | [uid] => run_async_or_sync _delete [uid]
  | _ => raise (arity_error "delete" ["uid"] args)
  end.

Definition delete_many : pyfun St := fun args =>
  match args with
  | [uids] => run_async_or_sync _delete_many [uids]
  | _ => raise (arity_error "delete_many" ["uids"] args)
  end.

(** [BaseCrud(model, storage)]: lines 20-21. *)
Definition __init__ (mdl : option pyclass) (sto : BaseStorage.t St)
    : crud_fields St :=
  {| model := mdl; storage := sto |}.

(** The dispatcher's operations, by name. *)
Inductive op :=
| Get | GetMany | Create | CreateMany | Put | PutMany
| Patch | PatchMany | Delete | DeleteMany.

(** The closure defined in [__init__] under that name. *)
Definition closure (o : op) : pyfun St :=
  match o with
  | Get => get | GetMany => get_many
  | Create => create | CreateMany => create_many
  | Put => put | PutMany => put_many
  | Patch => patch | PatchMany => patch_many
  | Delete => delete | DeleteMany => delete_many
  end.

(** The method [self._<name>]. *)
Definition private (o : op) : pyfun St :=
  match o with
  | Get => _get | GetMany => _get_many
  | Create => _create | CreateMany => _create_many
  | Put => _put | PutMany => _put_many
  | Patch => _patch | PatchMany => _patch_many
  | Delete => _delete | DeleteMany => _delete_many
  end.

(** An operation is entered through its closure or through its method. *)
Inductive entry := Closure | Method.

Definition call_op (l : entry) (o : op) : pyfun St :=
  match l with
  | Closure => closure o
  | Method => private o
  end.

(** The backend method an operation is written to reach. *)
Definition backend_method (o : op) : method :=
  match o with
  | Get => m_get | GetMany => m_get_many
  | Create | CreateMany => m_create
  | Put | PutMany => m_put
  | Patch | PatchMany => m_patch
  | Delete | DeleteMany => m_delete
  end.

(** The closures bound as attributes of [self] (lines 88-96), in the order
    of the assignments. *)
Definition bound_attributes : list (string * op) :=
  [("get", Get); ("put", Put); ("patch", Patch); ("create", Create);
   ("delete", Delete); ("get_many", GetMany); ("put_many", PutMany);
   ("patch_many", PatchMany); ("delete_many", DeleteMany)].
End Dispatcher.
End BaseCrud.

(** ** [class BaseCrudModel]: the default factories *)

(** What the field defaults call into: [uuid.uuid1] and [datetime.now], each
    reading (and advancing) the state [Env] of the Python runtime. *)
Record runtime (Env : Type) := {
  uuid1 : Env -> UUID * Env;
  now : Env -> datetime * Env
}.
Arguments uuid1 {Env}.
Arguments now {Env}.

(** [pydantic.Field(default_factory=f)]: the factory is called when the
    constructor is given no value for the field. *)
Definition field_value {Env A} (factory : Env -> A * Env) (given : option A)
    (e : Env) : A * Env :=
  match given with
  | Some v => (v, e)
  | None => factory e
  end.

(** [pydantic.UUID1]: a value passed for [uid] must be a UUID whose
    [version] is 1; a default is taken as the factory returns it. *)
Definition valid_uid (given : option UUID) : bool :=
  match given with
  | Some u =>
      match uuid_version u with
      | Some v => (v =? 1)%Z
      | None => false
      end
  | None => true
  end.

(** [BaseCrudModel(uid=..., created_on=..., modify_on=...)], each keyword
    optional; the fields are filled in the order of their declaration
    (lines 13-15). *)
Definition BaseCrudModel_new {Env} (rt : runtime Env)
    (kw_uid : option UUID) (kw_created_on kw_modify_on : option datetime)
    (e : Env) : Env * result BaseCrudModel :=
  let '(u, e1) := field_value (uuid1 rt) kw_uid e in
  let '(c, e2) := field_value (now rt) kw_created_on e1 in
  let '(m, e3) := field_value (now rt) kw_modify_on e2 in
  if valid_uid kw_uid
  then (e3, inr {| uid := u; created_on := c; modify_on := m |})
  else (e3, inl (ValidationError "uid")).

(** ** [class CRUDRouter] *)

Module CRUDRouter.
Inductive verb := GET | POST | PUT | PATCH | DELETE.

(** The attributes [__init__] sets (lines 142-160); [routes] is what the
    decorators [self.get(path)], [self.post(path)], ... have registered. *)
Record t (St : Type) := {
  model : option pyclass;
  storage_settings : list (string * string);
  storage : BaseStorage.t St;
  on_startup : list (St -> St * result value);
  on_shutdown : list (St -> St * result value);
  crud : crud_fields St;
  routes : list (verb * string * BaseCrud.op)
}.
Arguments model {St}.
Arguments storage_settings {St}.
Arguments storage {St}.
Arguments on_startup {St}.
Arguments on_shutdown {St}.
Arguments crud {St}.
Arguments routes {St}.

(** [CRUDRouter(crud_cls=..., model=..., storage_cls=...,
    storage_settings=...)].  [storage_cls] builds the backend from the model
    and the settings; the router and the world its dispatcher starts in are
    returned.  [APIRouter.__init__] (line 141) belongs to the web framework
    and is taken to leave the attributes below to the lines that set them. *)
Definition __init__ {St}
    (crud_cls : option pyclass -> BaseStorage.t St -> crud_fields St)
    (mdl : option pyclass)
    (storage_cls : option pyclass -> list (string * string) -> BaseStorage.t St * St)
    (settings : option (list (string * string)))
    : t St * world St :=
  let settings' := match settings with Some d => d | None => [] end in
  let '(sto, s0) := storage_cls mdl settings' in
  let c := crud_cls mdl sto in
  ({| model := mdl;
      storage_settings := settings';
      storage := sto;
      on_startup := [BaseStorage.start sto];
      on_shutdown := [BaseStorage.stop sto];
      crud := c;
      routes :=
        [(GET, "/{oid}", BaseCrud.Get); (GET, "/", BaseCrud.GetMany);
         (POST, "/", BaseCrud.Create);
         (PATCH, "/{oid}", BaseCrud.Patch); (PATCH, "/", BaseCrud.PatchMany);
         (PUT, "/{oid}", BaseCrud.Put); (PUT, "/", BaseCrud.PutMany);
         (DELETE, "/{oid}", BaseCrud.Delete);
         (DELETE, "/", BaseCrud.DeleteMany)] |},
   {| self := c; store := s0; calls := [] |}).

(** Lines 162-164: [self.model.__name__]; [None] has no such attribute. *)
Definition tag {St} (r : t St) : result pystr :=
  match model r with
  | Some c => inr (__name__ c)
  | None => inl (AttributeError "__name__")
  end.

(** Lines 166-168: the f-string, ["/"] (U+002F) followed by the tag,
    lowered as a whole. *)
Definition prefix {St} (u : unicode) (r : t St) : result pystr :=
  match tag r with
  | inr name => inr (str_lower u (47%N :: name))
  | inl e => inl e
  end.
End CRUDRouter.

(** ** A local storage backend *)

(** [str(uuid)]: 32 lowercase hexadecimal digits in groups of 8-4-4-4-12. *)
Definition hex_digit (d : Z) : ascii :=
  if (d <? 10)%Z then ascii_of_nat (48 + Z.to_nat d)
  else ascii_of_nat (87 + Z.to_nat d).

Fixpoint hex_digits (n : nat) (u : Z) (acc : string) : string :=
  match n with
  | O => acc
  | S n' => hex_digits n' (Z.shiftr u 4) (String (hex_digit (Z.land u 15)) acc)
  end.

Definition uuid_str (u : UUID) : string :=
  let h := hex_digits 32 u "" in
  substring 0 8 h +:+ "-" +:+ substring 8 4 h +:+ "-" +:+ substring 12 4 h
    +:+ "-" +:+ substring 16 4 h +:+ "-" +:+ substring 20 12 h.

Module LocalStorage.
(** Modelled from the spec: [fastcrud.storage.local.LocalStorage], which is
    not among the sources.  Sections 3 and 4.1: a collection of records,
    each under its identifier; [get], [put] and [delete] fail with NotFound
    on an identifier that is absent, [create] fails with Conflict on one
    that is present, [patch] creates at an absent identifier and merges the
    supplied fields into a present record, [get_many] selects by one field
    and fails with InvalidOperator on an operator it does not support
    (equality is the one supported here); [put] and [patch] refresh
    [modify_on] from the backend's clock. *)
Record state := {
  records : gmap string instance;
  clock : datetime
}.

(** Modelled from the spec: the value of the field [f] of a record, for the
    selection of [get_many]. *)
Definition field_of (o : instance) (f : string) : option string :=
  snd <$> List.find (fun kv => String.eqb (fst kv) f) (fields o).

(** Modelled from the spec: [patch] merges the supplied fields into the
    existing record; a supplied field replaces the one of the same name. *)
Definition merge_fields (new old : list (string * string))
    : list (string * string) :=
  new ++ List.filter
           (fun kv => negb (existsb (fun kv' => String.eqb (fst kv') (fst kv)) new))
           old.

(** Modelled from the spec: a mutating operation other than [create]
    refreshes [modify_on]. *)
Definition touch (t : datetime) (b : BaseCrudModel) : BaseCrudModel :=
  {| uid := uid b; created_on := created_on b; modify_on := t |}.

(** Modelled from the spec: [get(id)] is the record under [id], or fails
    with NotFound when there is none. *)
Definition get (args : list value) (s : state) : state * result value :=
  match args with
  | [VStr id] =>
      match records s !! id with
      | Some o => (s, inr (VObj o))
      | None => (s, inl NotFound)
      end
  | [_] => (s, inl NotFound)
  | _ => (s, inl (arity_error "get" ["uid"] args))
  end.

(** Modelled from the spec: [get_many(field, value, operator)] is the
    sequence of the records whose [field] equals [value], empty when none
    does, or fails with InvalidOperator on an operator other than ["eq"]. *)
Definition get_many (args : list value) (s : state) : state * result value :=
  match args with
  | [VStr f; VStr v; VStr opr] =>
      if String.eqb opr "eq"
      then (s, inr (VList (VObj <$>
               List.filter
                 (fun o => match field_of o f with
                           | Some v' => String.eqb v' v
                           | None => false
                           end)
                 (snd <$> map_to_list (records s)))))
      else (s, inl InvalidOperator)
  | [_; _; _] => (s, inl InvalidOperator)
  | _ => (s, inl (arity_error "get_many" ["field"; "value"; "opr"] args))
  end.

(** Modelled from the spec: [create(record)] stores the record under its
    identifier, or fails with Conflict when the identifier is taken. *)
Definition create (args : list value) (s : state) : state * result value :=
  match args with
  | [VObj o] =>
      let id := uuid_str (uid (base o)) in
      match records s !! id with
      | Some _ => (s, inl Conflict)
      | None =>
          ({| records := <[id := o]> (records s); clock := clock s |},
           inr (VObj o))
      end
  | [_] => (s, inl (ValidationError "obj"))
  | _ => (s, inl (arity_error "create" ["obj"] args))
  end.

(** Modelled from the spec: [put(id, record)] replaces the record under
    [id], or fails with NotFound when there is none. *)
Definition put (args : list value) (s : state) : state * result value :=
  match args with
  | [VStr id; VObj o] =>
      match records s !! id with
      | Some old =>
          let o' := {| class_of := class_of o;
                       base := touch (clock s) (base old);
                       fields := fields o |} in
          ({| records := <[id := o']> (records s); clock := clock s + 1 |},
           inr (VObj o'))
      | None => (s, inl NotFound)
      end
  | [_; _] => (s, inl NotFound)
  | _ => (s, inl (arity_error "put" ["uid"; "obj"] args))
  end.

(** Modelled from the spec: [patch(id, record)] creates the record at [id]
    when there is none, and merges the supplied fields otherwise. *)
Definition patch (args : list value) (s : state) : state * result value :=
  match args with
  | [VStr id; VObj o] =>
      match records s !! id with
      | Some old =>
          let o' := {| class_of := class_of old;
                       base := touch (clock s) (base old);
                       fields := merge_fields (fields o) (fields old) |} in
          ({| records := <[id := o']> (records s); clock := clock s + 1 |},
           inr (VObj o'))
      | None =>
          ({| records := <[id := o]> (records s); clock := clock s |},
           inr (VObj o))
      end
  | [_; _] => (s, inl (ValidationError "obj"))
  | _ => (s, inl (arity_error "patch" ["uid"; "obj"] args))
  end.

(** Modelled from the spec: [delete(id)] removes the record under [id], or
    fails with NotFound when there is none. *)
Definition delete (args : list value) (s : state) : state * result value :=
  match args with
  | [VStr id] =>
      match records s !! id with
      | Some o =>
          ({| records := base.delete id (records s); clock := clock s |},
           inr (VObj o))
      | None => (s, inl NotFound)
      end
  | [_] => (s, inl NotFound)
  | _ => (s, inl (arity_error "delete" ["uid"] args))
  end.

(** Modelled from the spec: [start] and [stop] bound the backend's
    resources; the local collection has none to acquire. *)
Definition start (s : state) : state * result value := (s, inr VNone).
Definition stop (s : state) : state * result value := (s, inr VNone).

(** Modelled from the spec: the capability set of section 4.2. *)
Definition methods : BaseStorage.t state :=
  BaseStorage.Build get get_many create put patch delete start stop.

(** Modelled from the spec: [LocalStorage(model, **settings)] starts with an
    empty collection. *)
Definition __init__ (mdl : option pyclass) (settings : list (string * string))
    : BaseStorage.t state * state :=
  (methods, {| records := ∅; clock := 0 |}).
End LocalStorage.

(** ** A runtime to run the model on *)

Module SimRuntime.
(** A clock counting 100 ns intervals stands for the process: [clock_seq]
    and [node] are fixed, and every reading of the clock advances it. *)
Definition clock_seq : Z := 0x1234.
Definition node : Z := 0x0242ac110002.

(** The layout of RFC 4122 for version 1: the timestamp in [time_low],
    [time_mid] and [time_hi], the version in bits 76..79, the variant in
    bits 62..63. *)
Definition uuid1 (e : Z) : UUID * Z :=
  let time_low := Z.land e 0xffffffff in
  let time_mid := Z.land (Z.shiftr e 32) 0xffff in
  let time_hi_version := Z.lor (Z.land (Z.shiftr e 48) 0x0fff) 0x1000 in
  let clock_seq_low := Z.land clock_seq 0xff in
  let clock_seq_hi_variant := Z.lor (Z.land (Z.shiftr clock_seq 8) 0x3f) 0x80 in
  (Z.lor (Z.shiftl time_low 96)
     (Z.lor (Z.shiftl time_mid 80)
        (Z.lor (Z.shiftl time_hi_version 64)
           (Z.lor (Z.shiftl clock_seq_hi_variant 56)
              (Z.lor (Z.shiftl clock_seq_low 48) node)))),
   e + 1).

Definition now (e : Z) : datetime * Z := (e / 10, e + 1).

Definition rt : runtime Z := Build_runtime Z uuid1 now.
End SimRuntime.

Module SimUnicode.
(** An excerpt of the Unicode database: Basic Latin, Latin-1, capital I
    with dot above (U+0130), Greek, and the combining marks. *)
Definition between (lo hi c : N) : bool := ((lo <=? c) && (c <=? hi))%N.

Definition upper (c : N) : bool :=
  between 65 90 c || between 192 214 c || between 216 222 c
  || between 913 929 c || between 931 939 c.

Definition to_lower_full (c : N) : list N :=
  if (c =? 304)%N then [105; 775]%N
  else if upper c then [(c + 32)%N]
  else [c].

Definition is_cased (c : N) : bool :=
  upper c || between 97 122 c || between 223 246 c || between 248 255 c
  || (c =? 304)%N || between 945 969 c.

Definition is_case_ignorable (c : N) : bool :=
  (c =? 39)%N || (c =? 46)%N || (c =? 58)%N || (c =? 94)%N || (c =? 96)%N
  || (c =? 168)%N || (c =? 173)%N || (c =? 175)%N || (c =? 180)%N
  || (c =? 183)%N || (c =? 184)%N || between 768 879 c.

Definition ucd : unicode :=
  Build_unicode to_lower_full is_cased is_case_ignorable.
End SimUnicode.

(** ** Backend calls as observations *)

Section Traces.
Context {St : Type}.

(** The collection after the backend calls [cs], made one after the other. *)
Definition replay (sto : BaseStorage.t St) (cs : list call) (s : St) : St :=
  fold_left
    (fun s c => fst (BaseStorage.attr sto (c_method c) (c_args c) s)) cs s.

(** The world in which the dispatcher has made the backend calls [cs] and
    has done nothing else. *)
Definition ran (w : world St) (cs : list call) : world St :=
  {| self := self w;
     store := replay (storage (self w)) cs (store w);
     calls := calls w ++ cs |}.

(** One call of [m] per item of [xs], in the order of [xs], each on the
    collection the call before it has left. *)
Fixpoint trace (sto : BaseStorage.t St) (m : method) (xs : list value)
    (s : St) : list call :=
  match xs with
  | [] => []
  | x :: xs' =>
      let sr := BaseStorage.attr sto m [x] s in
      {| c_method := m; c_args := [x]; c_outcome := snd sr |}
        :: trace sto m xs' (fst sr)
  end.

(** The log [cs] is what the backend did from the collection [s] on: each
    entry holds the outcome the backend gave on the collection the entries
    before it have left. *)
Fixpoint genuine (sto : BaseStorage.t St) (cs : list call) (s : St) : Prop :=
  match cs with
  | [] => True
  | c :: cs' =>
      let sr := BaseStorage.attr sto (c_method c) (c_args c) s in
      c_outcome c = snd sr /\ genuine sto cs' (fst sr)
  end.

(** The calls made between the worlds [w] and [w']. *)
Definition new_calls (w w' : world St) : list call :=
  drop (length (calls w)) (calls w').
End Traces.

Definition succeeded (c : call) : Prop := exists v, c_outcome c = inr v.

(** What the calls [cs] returned, for those that returned. *)
Definition returned (cs : list call) : list value :=
  omap (fun c => match c_outcome c with inr v => Some v | inl _ => None end) cs.

(** The operations that take a list of items. *)
Definition bulk (o : BaseCrud.op) : bool :=
  match o with
  | BaseCrud.CreateMany | BaseCrud.PutMany
  | BaseCrud.PatchMany | BaseCrud.DeleteMany => true
  | _ => false
  end.

(** A computation that touches the world through backend calls only, and
    whose result is the error of any backend call that raised. *)
Definition tracked {St A} (m : M St A) : Prop :=
  forall w, exists cs,
    fst (m w) = ran w cs
    /\ genuine (storage (self w)) cs (store w)
    /\ (forall c e, In c cs -> c_outcome c = inl e -> snd (m w) = inl e).

(** ** A scenario: a router for [Item] over the local storage *)

Module Scenario.
Definition Item : pyclass := {| __name__ := codepoints "Item" |}.

Definition record_a : instance :=
  {| class_of := Item;
     base := {| uid := fst (SimRuntime.uuid1 5); created_on := 0; modify_on := 0 |};
     fields := [("name", "a")] |}.

Definition record_b : instance :=
  {| class_of := Item;
     base := {| uid := fst (SimRuntime.uuid1 6); created_on := 1; modify_on := 1 |};
     fields := [("name", "b")] |}.

(** A model named with a capital E with acute accent (U+00C9). *)
Definition Elan : pyclass := {| __name__ := [201; 108; 97; 110]%N |}.

Definition id_a : string := uuid_str (uid (base record_a)).
Definition id_b : string := uuid_str (uid (base record_b)).

Definition router : CRUDRouter.t LocalStorage.state * world LocalStorage.state :=
  CRUDRouter.__init__ BaseCrud.__init__ (Some Item) LocalStorage.__init__ None.

(** The world the router starts in, and the world after [record_a] has
    been created. *)
Definition w0 : world LocalStorage.state := snd router.
Definition w1 : world LocalStorage.state :=
  fst (BaseCrud.create [VObj record_a] w0).
End Scenario.

(** The body of the comprehension of a bulk operation, as written in its
    method (lines 110, 116, 122, 128). *)
Definition item_call {St} (o : BaseCrud.op) : value -> M St value :=
  match o with
  | BaseCrud.CreateMany => fun obj => BaseCrud._create [obj]
  | BaseCrud.PutMany => fun obj => BaseCrud._put [obj]
  | BaseCrud.PatchMany => fun obj => BaseCrud._patch [obj]
  | BaseCrud.DeleteMany => fun uid => BaseCrud._delete [uid]
  | _ => fun _ => ret VNone
  end.

(** The numbers of positional arguments the [def] of an operation binds
    (closure and method alike, [self] not counted): [get_many] has one
    parameter with a default, [put] and [patch] take an identifier and a
    record, every other operation takes one argument. *)
Definition accepts (o : BaseCrud.op) (n : nat) : bool :=
  match o with
  | BaseCrud.GetMany => (n =? 2)%nat || (n =? 3)%nat
  | BaseCrud.Put | BaseCrud.Patch => (n =? 2)%nat
  | _ => (n =? 1)%nat
  end.

(** The operations routed on an item path, ["/{oid}"]. *)
Definition on_item (o : BaseCrud.op) : bool :=
  match o with
  | BaseCrud.Get | BaseCrud.Put | BaseCrud.Patch | BaseCrud.Delete => true
  | _ => false
  end.

(** A computation that stops calling the backend at the first call that
    fails: either every call it has made has returned, or the last one has
    failed, every one before it has returned, and its error is the result. *)
Definition halting {St A} (m : M St A) : Prop :=
  forall w, exists cs,
    fst (m w) = ran w cs
    /\ ((forall c, In c cs -> succeeded c)
        \/ (exists pre c e,
              cs = pre ++ [c]
              /\ (forall c', In c' pre -> succeeded c')
              /\ c_outcome c = inl e
              /\ snd (m w) = inl e)).

(** * Properties *)

Section MonadFacts.
Context {St : Type}.
Implicit Types (w : world St) (cs : list call).

Lemma replay_app sto cs1 cs2 (s : St) :
  replay sto (cs1 ++ cs2) s = replay sto cs2 (replay sto cs1 s).
Proof. unfold replay. apply fold_left_app. Qed.

Lemma genuine_app sto cs1 cs2 (s : St) :
  genuine sto cs1 s -> genuine sto cs2 (replay sto cs1 s) ->
  genuine sto (cs1 ++ cs2) s.
Proof.
  revert s; induction cs1 as [|c cs1 IH]; intros s H1 H2; simpl in *.
  - exact H2.
  - destruct H1 as [Hc H1]. split; [exact Hc | now apply IH].
Qed.

Lemma ran_nil w : ran w [] = w.
Proof. destruct w as [slf s cs]. unfold ran; simpl. now rewrite app_nil_r. Qed.

Lemma ran_ran w cs1 cs2 : ran (ran w cs1) cs2 = ran w (cs1 ++ cs2).
Proof.
  unfold ran; simpl. rewrite replay_app. now rewrite <- app_assoc.
Qed.

Lemma new_calls_ran w cs : new_calls w (ran w cs) = cs.
Proof. unfold new_calls, ran; simpl. apply drop_app_length. Qed.

Lemma self_ran w cs : self (ran w cs) = self w.
Proof. reflexivity. Qed.

(** A backend call is one entry of the log, and its outcome is the result. *)
Lemma storage_call_ran (m : method) (args : list value) w :
  let sr := BaseStorage.attr (storage (self w)) m args (store w) in
  BaseCrud.storage_call m args w
  = (ran w [{| c_method := m; c_args := args; c_outcome := snd sr |}], snd sr).
Proof.
  unfold BaseCrud.storage_call, ran, replay; simpl.
  destruct (BaseStorage.attr (storage (self w)) m args (store w)) as [s' r].
  reflexivity.
Qed.
End MonadFacts.

Section BulkFacts.
Context {St : Type}.
Implicit Types (w : world St) (xs : list value) (f : value -> M St value).

Lemma trace_length (sto : BaseStorage.t St) m xs s :
  length (trace sto m xs s) = length xs.
Proof.
  revert s; induction xs as [|x xs IH]; intros s; simpl; [reflexivity|].
  now rewrite IH.
Qed.

Lemma trace_args (sto : BaseStorage.t St) m xs s :
  map c_args (trace sto m xs s) = map (fun x => [x]) xs.
Proof.
  revert s; induction xs as [|x xs IH]; intros s; simpl; [reflexivity|].
  now rewrite IH.
Qed.

Lemma trace_method (sto : BaseStorage.t St) m xs s c :
  In c (trace sto m xs s) -> c_method c = m.
Proof.
  revert s; induction xs as [|x xs IH]; intros s; simpl; [tauto|].
  intros [<- | Hin]; [reflexivity | eauto].
Qed.

(** Unfolding one item of a comprehension whose body is one backend call. *)
Lemma comprehension_step m f x xs w :
  (forall y, f y = BaseCrud.storage_call m [y]) ->
  let sr := BaseStorage.attr (storage (self w)) m [x] (store w) in
  let c := {| c_method := m; c_args := [x]; c_outcome := snd sr |} in
  comprehension f (x :: xs) w =
    match snd sr with
    | inr v =>
        match comprehension f xs (ran w [c]) with
        | (w', inr rs) => (w', inr (v :: rs))
        | (w', inl e) => (w', inl e)
        end
    | inl e => (ran w [c], inl e)
    end.
Proof.
  intros Hf sr c. simpl. unfold bind at 1. rewrite Hf, storage_call_ran.
  fold sr. fold c. destruct (snd sr) as [e|v]; [reflexivity|].
  unfold bind, ret.
  destruct (comprehension f xs (ran w [c])) as [w' [e|rs]]; reflexivity.
Qed.

(** The first failing call ends the comprehension: the calls up to it have
    been made, their effects stay, its error is the result. *)
Lemma comprehension_fail m f xs : forall w i e,
  (forall y, f y = BaseCrud.storage_call m [y]) ->
  c_outcome <$> trace (storage (self w)) m xs (store w) !! i = Some (inl e) ->
  (forall j c, (j < i)%nat ->
     trace (storage (self w)) m xs (store w) !! j = Some c -> succeeded c) ->
  comprehension f xs w
  = (ran w (trace (storage (self w)) m (take (S i) xs) (store w)), inl e).
Proof.
  induction xs as [|x xs IH]; intros w i e Hf Hi Hlt; [discriminate|].
  rewrite (comprehension_step m f x xs w Hf).
  destruct i as [|i]; simpl in Hi.
  - injection Hi as Hi. destruct xs; simpl; rewrite Hi; reflexivity.
  - destruct (Hlt 0%nat _ ltac:(lia) eq_refl) as [v Hv]. simpl in Hv.
    rewrite Hv.
    set (c := {| c_method := m; c_args := [x]; c_outcome := _ |}).
    assert (Hst : store (ran w [c])
                  = fst (BaseStorage.attr (storage (self w)) m [x] (store w)))
      by reflexivity.
    rewrite (IH (ran w [c]) i e Hf).
    + rewrite ran_ran, self_ran, Hst. simpl. rewrite Hv. reflexivity.
    + rewrite self_ran, Hst. exact Hi.
    + intros j c' Hj Hc'. rewrite self_ran, Hst in Hc'.
      apply (Hlt (S j) c'); [lia | exact Hc'].
Qed.

(** When every call succeeds, every item has been processed. *)
Lemma comprehension_ok m f xs : forall w,
  (forall y, f y = BaseCrud.storage_call m [y]) ->
  (forall c, In c (trace (storage (self w)) m xs (store w)) -> succeeded c) ->
  comprehension f xs w
  = (ran w (trace (storage (self w)) m xs (store w)),
     inr (returned (trace (storage (self w)) m xs (store w)))).
Proof.
  induction xs as [|x xs IH]; intros w Hf Hall.
  - simpl. now rewrite ran_nil.
  - rewrite (comprehension_step m f x xs w Hf).
    destruct (Hall _ (or_introl eq_refl)) as [v Hv]. simpl in Hv. rewrite Hv.
    set (c := {| c_method := m; c_args := [x]; c_outcome := _ |}).
    assert (Hst : store (ran w [c])
                  = fst (BaseStorage.attr (storage (self w)) m [x] (store w)))
      by reflexivity.
    rewrite (IH (ran w [c]) Hf).
    + rewrite ran_ran, self_ran, Hst. simpl. unfold returned at 2. simpl.
      rewrite Hv. reflexivity.
    + intros c' Hc'. rewrite self_ran, Hst in Hc'.
      apply Hall. right. exact Hc'.
Qed.
End BulkFacts.

Section Tracking.
Context {St : Type}.
Implicit Types (w : world St).

Lemma tracked_ret {A} (a : A) : tracked (St := St) (ret a).
Proof.
  intros w. exists []. rewrite ran_nil.
  split; [reflexivity | split; [exact I | intros c e []]].
Qed.

Lemma tracked_raise {A} (e : exn) : tracked (St := St) (A := A) (raise e).
Proof.
  intros w. exists []. rewrite ran_nil.
  split; [reflexivity | split; [exact I | intros c e' []]].
Qed.

Lemma tracked_lift {A} (r : result A) : tracked (St := St) (lift r).
Proof.
  intros w. exists []. rewrite ran_nil.
  split; [reflexivity | split; [exact I | intros c e' []]].
Qed.

Lemma tracked_storage_call (m : method) (args : list value) :
  tracked (St := St) (BaseCrud.storage_call m args).
Proof.
  intros w. rewrite storage_call_ran. eexists [_]. split; [reflexivity|].
  split; [simpl; auto |]. intros c e [<- | []]. simpl. auto.
Qed.

Lemma tracked_bind {A B} (m : M St A) (k : A -> M St B) :
  tracked m -> (forall a, tracked (k a)) -> tracked (bind m k).
Proof.
  intros Hm Hk w. destruct (Hm w) as (cs1 & H1 & G1 & E1). unfold bind.
  destruct (m w) as [w1 [e|a]]; simpl in H1, E1.
  - exists cs1. split; [exact H1 |]. split; [exact G1 |].
    intros c e0 Hin Hc. specialize (E1 c e0 Hin Hc).
    injection E1 as ->. reflexivity.
  - subst w1. destruct (Hk a (ran w cs1)) as (cs2 & H2 & G2 & E2).
    exists (cs1 ++ cs2). rewrite H2, ran_ran. split; [reflexivity|].
    split; [apply genuine_app; [exact G1 | exact G2] |].
    intros c e Hin Hc. apply in_app_or in Hin as [Hin | Hin].
    + specialize (E1 c e Hin Hc). discriminate.
    + exact (E2 c e Hin Hc).
Qed.

Lemma tracked_comprehension (f : value -> M St value) (xs : list value) :
  (forall x, tracked (f x)) -> tracked (comprehension f xs).
Proof.
  intros Hf. induction xs as [|x xs IH]; simpl.
  - apply tracked_ret.
  - apply tracked_bind; [apply Hf | intros r].
    apply tracked_bind; [exact IH | intros rs; apply tracked_ret].
Qed.

Ltac tracked_steps :=
  repeat first
    [ apply tracked_raise
    | apply tracked_ret
    | apply tracked_lift
    | apply tracked_storage_call
    | apply tracked_comprehension; intros ?
    | apply tracked_bind; [| intros ?] ].

(** Every operation, entered either way and on any arguments, reaches the
    world through backend calls only. *)
Lemma tracked_op (l : BaseCrud.entry) (o : BaseCrud.op) (args : list value) :
  tracked (St := St) (BaseCrud.call_op l o args).
Proof.
  destruct l, o; destruct args as [|a [|b [|c [|d args]]]];
    unfold BaseCrud.call_op, BaseCrud.closure, BaseCrud.private,
      BaseCrud.get, BaseCrud.get_many, BaseCrud.create, BaseCrud.create_many,
      BaseCrud.put, BaseCrud.put_many, BaseCrud.patch, BaseCrud.patch_many,
      BaseCrud.delete, BaseCrud.delete_many,
      BaseCrud._get, BaseCrud._get_many, BaseCrud._create,
      BaseCrud._create_many, BaseCrud._put, BaseCrud._put_many,
      BaseCrud._patch, BaseCrud._patch_many, BaseCrud._delete,
      BaseCrud._delete_many, BaseCrud.run_async_or_sync;
    tracked_steps.
Qed.
End Tracking.

(** ** The bulk updates: [put_many] and [patch_many] *)

Section Updates.
Context {St : Type}.
Implicit Types (w : world St).

(** C1, as the code has it: on every list with at least one record,
    [put_many] (and [_put_many]) raises the TypeError of the call
    [self._put(obj)], which leaves the parameter [obj] of [_put] unbound;
    the world is the one it started in, so the backend's [put] has not been
    called for any record. *)
Theorem put_many_raises (obj : value) (rest : list value) w :
  BaseCrud.put_many [VList (obj :: rest)] w
    = (w, inl (TypeError (missing_arguments "_put" ["obj"])))
  /\ BaseCrud._put_many [VList (obj :: rest)] w
    = (w, inl (TypeError (missing_arguments "_put" ["obj"])))
  /\ new_calls w (fst (BaseCrud.put_many [VList (obj :: rest)] w)) = [].
Proof.
  repeat split. unfold new_calls; simpl. apply drop_all.
Qed.

(** C2, as the code has it: on every list with at least one record,
    [patch_many] (and [_patch_many]) raises the TypeError of the call
    [self._patch(obj)], which leaves the parameter [obj] of [_patch]
    unbound; the backend's [patch] has not been called for any record. *)
Theorem patch_many_raises (obj : value) (rest : list value) w :
  BaseCrud.patch_many [VList (obj :: rest)] w
    = (w, inl (TypeError (missing_arguments "_patch" ["obj"])))
  /\ BaseCrud._patch_many [VList (obj :: rest)] w
    = (w, inl (TypeError (missing_arguments "_patch" ["obj"])))
  /\ new_calls w (fst (BaseCrud.patch_many [VList (obj :: rest)] w)) = [].
Proof.
  repeat split. unfold new_calls; simpl. apply drop_all.
Qed.
End Updates.

(** ** Reads: [get] and [get_many] *)

Section Reads.
Context {St : Type}.
Implicit Types (w : world St).

(** C7: [get(uid)] makes one backend call, [storage.get(uid)] with the
    identifier as it was passed, and its result is the backend's; when the
    backend answers NotFound (no record under that identifier), [get] fails
    with NotFound. *)
Theorem get_forwards (uid : value) w (r : result value) :
  snd (BaseStorage.get (storage (self w)) [uid] (store w)) = r ->
  BaseCrud.get [uid] w
    = (ran w [{| c_method := m_get; c_args := [uid]; c_outcome := r |}], r)
  /\ (r = inl NotFound -> snd (BaseCrud.get [uid] w) = inl NotFound).
Proof.
  intros Hr.
  assert (H : BaseCrud.get [uid] w
    = (ran w [{| c_method := m_get; c_args := [uid]; c_outcome := r |}], r)).
  { change (BaseCrud.get [uid] w) with (BaseCrud.storage_call m_get [uid] w).
    rewrite storage_call_ran. simpl. now rewrite Hr. }
  split; [exact H |]. intros ->. now rewrite H.
Qed.

(** C10: [get_many(field, value)] is [get_many(field, value, "eq")], and
    the one backend call it makes is [storage.get_many(field, value, "eq")];
    the method [_get_many] has the same default. *)
Theorem get_many_default_eq (field val : value) w :
  BaseCrud.get_many [field; val] w
    = BaseCrud.get_many [field; val; VStr "eq"] w
  /\ BaseCrud._get_many [field; val] w
    = BaseCrud._get_many [field; val; VStr "eq"] w
  /\ map (fun c => (c_method c, c_args c))
       (new_calls w (fst (BaseCrud.get_many [field; val] w)))
    = [(m_get_many, [field; val; VStr "eq"])].
Proof.
  repeat split.
  change (BaseCrud.get_many [field; val] w)
    with (BaseCrud.storage_call m_get_many [field; val; VStr "eq"] w).
  rewrite storage_call_ran. simpl. now rewrite new_calls_ran.
Qed.
End Reads.

Lemma get_forwards_witness :
  snd (BaseStorage.get (storage (self Scenario.w0)) [VStr "nope"]
         (store Scenario.w0)) = inl NotFound
  /\ snd (BaseCrud.get [VStr "nope"] Scenario.w0) = inl NotFound.
Proof.
  split; [vm_compute; reflexivity |].
  apply (get_forwards (VStr "nope") Scenario.w0 (inl NotFound));
    vm_compute; reflexivity.
Defined.

(** ** The model's defaults *)

(** C6: a record constructed with none of [uid], [created_on] and [modify_on]
    given takes its identifier from a call of [uuid.uuid1] made by the
    constructor, a version-1 UUID when that is what the runtime's [uuid1]
    returns, and takes [created_on] and [modify_on] each from a call of
    [datetime.now] made by the constructor after it. *)
Theorem model_defaults {Env} (rt : runtime Env) (e : Env) :
  uuid_version (fst (uuid1 rt e)) = Some 1 ->
  let u := uuid1 rt e in
  let c := now rt (snd u) in
  let m := now rt (snd c) in
  BaseCrudModel_new rt None None None e
    = (snd m, inr {| uid := fst u; created_on := fst c; modify_on := fst m |})
  /\ (forall r, snd (BaseCrudModel_new rt None None None e) = inr r ->
        uuid_version (uid r) = Some 1).
Proof.
  intros Hv u c m.
  assert (H : BaseCrudModel_new rt None None None e
    = (snd m, inr {| uid := fst u; created_on := fst c; modify_on := fst m |})).
  { unfold BaseCrudModel_new, field_value, valid_uid. subst u c m.
    destruct (uuid1 rt e) as [u0 e1]; simpl.
    destruct (now rt e1) as [t1 e2]; simpl.
    destruct (now rt e2) as [t2 e3]; reflexivity. }
  split; [exact H |]. intros r Hr. rewrite H in Hr. simpl in Hr.
  injection Hr as <-. exact Hv.
Qed.

Lemma model_defaults_witness :
  uuid_version (fst (uuid1 SimRuntime.rt 1000)) = Some 1
  /\ BaseCrudModel_new SimRuntime.rt None None None 1000
     = (1003, inr {| uid := fst (SimRuntime.uuid1 1000);
                     created_on := 100; modify_on := 100 |}).
Proof.
  split; [vm_compute; reflexivity |].
  apply (model_defaults SimRuntime.rt 1000). vm_compute; reflexivity.
Defined.

(** ** The router's prefix *)

Section Lower.
Variable u : unicode.
Hypothesis slash_not_cased : is_cased u 47 = false.

(** A ["/"] further back than everything that precedes a capital sigma does
    not put it in the Final_Sigma context, nor take it out of it. *)
Lemma final_sigma_slash (before after : pystr) :
  final_sigma u (before ++ [47%N]) after = final_sigma u before after.
Proof.
  unfold final_sigma. induction before as [|c before IH]; simpl.
  - destruct (is_case_ignorable u 47); [reflexivity |].
    now rewrite slash_not_cased.
  - destruct (is_case_ignorable u c); [exact IH | reflexivity].
Qed.

Lemma lower_from_slash (s : pystr) : forall before,
  lower_from u (before ++ [47%N]) s = lower_from u before s.
Proof.
  induction s as [|c s IH]; intros before; simpl; [reflexivity |].
  rewrite final_sigma_slash. f_equal. exact (IH (c :: before)).
Qed.

Lemma str_lower_slash (s : pystr) :
  to_lower_full u 47 = [47%N] ->
  str_lower u (47%N :: s) = 47%N :: str_lower u s.
Proof.
  intros Hslash. unfold str_lower. simpl. rewrite Hslash.
  exact (f_equal (cons 47%N) (lower_from_slash s [])).
Qed.
End Lower.

(** C9: a router constructed with a model type has the prefix ["/"] followed
    by the lowercase name of that type, whatever the other arguments; ["/"]
    is taken as the Unicode database has it (not cased, with itself as
    lowercase mapping). *)
Theorem prefix_lowercase_model_name {St} (u : unicode)
    (crud_cls : option pyclass -> BaseStorage.t St -> crud_fields St)
    (c : pyclass)
    (storage_cls : option pyclass -> list (string * string) -> BaseStorage.t St * St)
    (settings : option (list (string * string))) :
  to_lower_full u 47 = [47%N] ->
  is_cased u 47 = false ->
  CRUDRouter.prefix u
    (fst (CRUDRouter.__init__ crud_cls (Some c) storage_cls settings))
  = inr (47%N :: str_lower u (__name__ c)).
Proof.
  intros Hslash Hcased. unfold CRUDRouter.__init__.
  destruct (storage_cls (Some c) _) as [sto s0].
  unfold CRUDRouter.prefix, CRUDRouter.tag. simpl.
  now rewrite (str_lower_slash u Hcased (__name__ c) Hslash).
Qed.

Lemma prefix_lowercase_model_name_witness :
  CRUDRouter.prefix SimUnicode.ucd
    (fst (CRUDRouter.__init__ BaseCrud.__init__ (Some Scenario.Elan)
            LocalStorage.__init__ None))
  = inr [47; 233; 108; 97; 110]%N.
Proof.
  rewrite (prefix_lowercase_model_name SimUnicode.ucd BaseCrud.__init__
             Scenario.Elan LocalStorage.__init__ None);
    reflexivity.
Defined.

(** ** The bulk operations that reach the backend *)

Section Bulk.
Context {St : Type}.
Implicit Types (w : world St).

(** A bulk operation on a list is the comprehension over its items. *)
Lemma many_unfold (f : value -> M St value) (items : list value) w :
  (xs <~ lift (py_iter (VList items)) ;;
   rs <~ comprehension f xs ;;
   ret (VList rs)) w
  = match comprehension f items w with
    | (w', inr rs) => (w', inr (VList rs))
    | (w', inl e) => (w', inl e)
    end.
Proof. reflexivity. Qed.

(** C4: [create_many(objs)], entered through the closure or through
    [_create_many], calls the backend's [create] on the records one by one
    in the order of [objs], each call on the collection the call before it
    has left.  When the call for the record at position [i] is the first to
    fail, the calls made are those for positions [0..i], the collection is
    the one these calls have left (what the earlier creations did stays),
    and the error of that call is the result; when no call fails there is
    one call per record and the result is the list of what they returned. *)
Theorem create_many_sequential (l : BaseCrud.entry) (objs : list value) w :
  let sto := storage (self w) in
  let tr := trace sto m_create objs (store w) in
  (forall i e,
      c_outcome <$> tr !! i = Some (inl e) ->
      (forall j c, (j < i)%nat -> tr !! j = Some c -> succeeded c) ->
      BaseCrud.call_op l BaseCrud.CreateMany [VList objs] w
      = (ran w (trace sto m_create (take (S i) objs) (store w)), inl e))
  /\ ((forall c, In c tr -> succeeded c) ->
      BaseCrud.call_op l BaseCrud.CreateMany [VList objs] w
      = (ran w tr, inr (VList (returned tr)))).
Proof.
  intros sto tr.
  assert (Hop : BaseCrud.call_op l BaseCrud.CreateMany [VList objs] w
    = match comprehension (fun obj => BaseCrud._create [obj]) objs w with
      | (w', inr rs) => (w', inr (VList rs))
      | (w', inl e) => (w', inl e)
      end) by (destruct l; reflexivity).
  rewrite Hop. split.
  - intros i e Hi Hlt.
    now rewrite (comprehension_fail m_create
                   (fun obj => BaseCrud._create [obj]) objs w i e
                   (fun _ => eq_refl) Hi Hlt).
  - intros Hall.
    now rewrite (comprehension_ok m_create
                   (fun obj => BaseCrud._create [obj]) objs w
                   (fun _ => eq_refl) Hall).
Qed.
End Bulk.

Lemma create_many_sequential_witness :
  let objs := [VObj Scenario.record_a; VObj Scenario.record_a; VObj Scenario.record_b] in
  let res := BaseCrud.create_many [VList objs] Scenario.w0 in
  snd res = inl Conflict
  /\ LocalStorage.records (store (fst res)) !! Scenario.id_a = Some Scenario.record_a
  /\ LocalStorage.records (store (fst res)) !! Scenario.id_b = None
  /\ length (new_calls Scenario.w0 (fst res)) = 2%nat.
Proof.
  intros objs res.
  assert (H : res
    = (ran Scenario.w0
         (trace (storage (self Scenario.w0)) m_create (take 2 objs)
            (store Scenario.w0)), inl Conflict)).
  { apply (create_many_sequential BaseCrud.Closure objs Scenario.w0).
    - vm_compute; reflexivity.
    - intros j c Hj Hc. destruct j as [|j]; [| lia].
      vm_compute in Hc. injection Hc as <-. eexists; reflexivity. }
  rewrite H. repeat split; vm_compute; reflexivity.
Defined.

(** ** Partial completion of [delete_many] *)

(** C5, over the local storage: when a record is stored under [X] and none
    under [Y], [delete_many([X, Y])] calls the backend's [delete] on [X] and
    then on [Y], fails with the NotFound of the second call, and leaves the
    collection with [X] removed; [get(X)] in the world it leaves fails with
    NotFound. *)
Theorem delete_many_partial_completion
    (w : world LocalStorage.state) (X Y : string) (o : instance) :
  storage (self w) = LocalStorage.methods ->
  LocalStorage.records (store w) !! X = Some o ->
  LocalStorage.records (store w) !! Y = None ->
  let res := BaseCrud.delete_many [VList [VStr X; VStr Y]] w in
  snd res = inl NotFound
  /\ new_calls w (fst res)
     = [{| c_method := m_delete; c_args := [VStr X]; c_outcome := inr (VObj o) |};
        {| c_method := m_delete; c_args := [VStr Y]; c_outcome := inl NotFound |}]
  /\ LocalStorage.records (store (fst res))
     = base.delete X (LocalStorage.records (store w))
  /\ snd (BaseCrud.get [VStr X] (fst res)) = inl NotFound.
Proof.
  intros Hsto HX HY res.
  assert (HXY : X <> Y) by (intros ->; congruence).
  assert (HY' : base.delete X (LocalStorage.records (store w)) !! Y = None)
    by (rewrite lookup_delete_ne; [exact HY | exact HXY]).
  assert (Hres : res
    = (ran w [{| c_method := m_delete; c_args := [VStr X];
                 c_outcome := inr (VObj o) |};
              {| c_method := m_delete; c_args := [VStr Y];
                 c_outcome := inl NotFound |}], inl NotFound)).
  { subst res.
    change (BaseCrud.delete_many [VList [VStr X; VStr Y]] w)
      with (match comprehension (fun uid => BaseCrud._delete [uid])
                    [VStr X; VStr Y] w with
            | (w', inr rs) => (w', inr (VList rs))
            | (w', inl e) => (w', inl e)
            end).
    rewrite (comprehension_fail m_delete (fun uid => BaseCrud._delete [uid])
               [VStr X; VStr Y] w 1 NotFound (fun _ => eq_refl)).
    - simpl. rewrite Hsto. simpl. rewrite HX. simpl. rewrite HY'. reflexivity.
    - simpl. rewrite Hsto. simpl. rewrite HX. simpl. rewrite HY'. reflexivity.
    - intros j c Hj Hc. destruct j as [|j]; [| lia].
      simpl in Hc. injection Hc as <-. rewrite Hsto. simpl. rewrite HX.
      eexists; reflexivity. }
  assert (Hstore : LocalStorage.records (store (fst res))
                   = base.delete X (LocalStorage.records (store w))).
  { rewrite Hres. simpl. rewrite Hsto. simpl. rewrite HX. simpl.
    rewrite HY'. reflexivity. }
  repeat split.
  - now rewrite Hres.
  - rewrite Hres. apply new_calls_ran.
  - exact Hstore.
  - change (BaseCrud.get [VStr X] (fst res))
      with (BaseCrud.storage_call m_get [VStr X] (fst res)).
    rewrite storage_call_ran. simpl.
    replace (storage (self (fst res))) with LocalStorage.methods
      by (rewrite Hres; simpl; now rewrite Hsto).
    simpl. rewrite Hstore, lookup_delete_eq. reflexivity.
Qed.

Lemma delete_many_partial_completion_witness :
  let res := BaseCrud.delete_many
               [VList [VStr Scenario.id_a; VStr "nope"]] Scenario.w1 in
  LocalStorage.records (store Scenario.w1) !! Scenario.id_a
    = Some Scenario.record_a
  /\ LocalStorage.records (store Scenario.w1) !! "nope" = None
  /\ snd res = inl NotFound
  /\ snd (BaseCrud.get [VStr Scenario.id_a] (fst res)) = inl NotFound.
Proof.
  intros res.
  split; [vm_compute; reflexivity |]. split; [vm_compute; reflexivity |].
  assert (H := delete_many_partial_completion Scenario.w1 Scenario.id_a "nope"
                 Scenario.record_a).
  split; apply H;
    first [ reflexivity | vm_compute; reflexivity ].
Defined.

(** ** What every operation does to the world *)

Section Frame.
Context {St : Type}.
Implicit Types (w : world St) (xs : list value).

(** A comprehension over backend calls has made the calls for a prefix of
    its items, and for all of them when it returns. *)
Lemma comprehension_prefix m (f : value -> M St value) xs : forall w,
  (forall y, f y = BaseCrud.storage_call m [y]) ->
  exists k, (k <= length xs)%nat
    /\ fst (comprehension f xs w)
       = ran w (trace (storage (self w)) m (take k xs) (store w))
    /\ (forall rs, snd (comprehension f xs w) = inr rs -> k = length xs).
Proof.
  induction xs as [|x xs IH]; intros w Hf.
  - exists 0%nat. simpl. rewrite ran_nil. auto.
  - rewrite (comprehension_step m f x xs w Hf).
    set (sr := BaseStorage.attr (storage (self w)) m [x] (store w)).
    set (c := {| c_method := m; c_args := [x]; c_outcome := snd sr |}).
    destruct (snd sr) as [e|v] eqn:Hsr.
    + exists 1%nat. simpl. split; [lia |]. split; [| discriminate].
      destruct xs; simpl; fold sr; rewrite Hsr; reflexivity.
    + destruct (IH (ran w [{| c_method := m; c_args := [x];
                              c_outcome := inr v |}]) Hf)
        as (k & Hk & Hfst & Hok).
      exists (S k). simpl. split; [lia |].
      destruct (comprehension f xs _) as [w' [e|rs]]; simpl in *.
      * split; [| discriminate]. rewrite Hfst, ran_ran. simpl.
        fold sr. rewrite Hsr. reflexivity.
      * split; [| intros rs' _; f_equal; eauto].
        rewrite Hfst, ran_ran. simpl. fold sr. rewrite Hsr. reflexivity.
Qed.

(** A comprehension whose body raises before any call leaves the world as
    it is, and returns on the empty list only. *)
Lemma comprehension_raise (e : exn) (f : value -> M St value) xs w :
  (forall y, f y = raise e) ->
  fst (comprehension f xs w) = w
  /\ (forall rs, snd (comprehension f xs w) = inr rs -> xs = []).
Proof.
  intros Hf. destruct xs as [|x xs]; simpl; [auto |].
  unfold bind at 1. rewrite Hf. simpl. split; [reflexivity | discriminate].
Qed.

Lemma bulk_unfold (l : BaseCrud.entry) (o : BaseCrud.op) (v : value) w :
  bulk o = true ->
  BaseCrud.call_op l o [v] w
  = (xs <~ lift (py_iter v) ;;
     rs <~ comprehension (item_call o) xs ;;
     ret (VList rs)) w.
Proof. destruct l, o; try discriminate; reflexivity. Qed.

Lemma item_calls (o : BaseCrud.op) xs w :
  bulk o = true ->
  exists k, (k <= length xs)%nat
    /\ fst (comprehension (item_call o) xs w)
       = ran w (trace (storage (self w)) (BaseCrud.backend_method o)
                  (take k xs) (store w))
    /\ (forall rs, snd (comprehension (item_call o) xs w) = inr rs ->
          k = length xs).
Proof.
  destruct o; try discriminate; intros _.
  - apply comprehension_prefix. reflexivity.
  - destruct (comprehension_raise
                (arity_error "_put" ["uid"; "obj"] [VNone])
                (item_call BaseCrud.PutMany) xs w (fun _ => eq_refl))
      as [Hw Hok].
    exists 0%nat. rewrite Hw, take_0. simpl. rewrite ran_nil.
    split; [lia |]. split; [reflexivity |].
    intros rs Hrs. now rewrite (Hok rs Hrs).
  - destruct (comprehension_raise
                (arity_error "_patch" ["uid"; "obj"] [VNone])
                (item_call BaseCrud.PatchMany) xs w (fun _ => eq_refl))
      as [Hw Hok].
    exists 0%nat. rewrite Hw, take_0. simpl. rewrite ran_nil.
    split; [lia |]. split; [reflexivity |].
    intros rs Hrs. now rewrite (Hok rs Hrs).
  - apply comprehension_prefix. reflexivity.
Qed.
End Frame.

Section Operations.
Context {St : Type}.
Implicit Types (w : world St).

(** What an operation has called: the calls it added to the log, with the
    facts that do not depend on how it was entered or on what it was given. *)
Lemma op_calls (l : BaseCrud.entry) (o : BaseCrud.op) (args : list value) w :
  exists cs,
    fst (BaseCrud.call_op l o args w) = ran w cs
    /\ (forall c, In c cs -> c_method c = BaseCrud.backend_method o)
    /\ (bulk o = false -> (length cs <= 1)%nat)
    /\ (forall items, bulk o = true -> args = [VList items] ->
          map c_args cs = map (fun x => [x]) (take (length cs) items)
          /\ (forall v, snd (BaseCrud.call_op l o args w) = inr v ->
                length cs = length items)).
Proof.
  destruct (bulk o) eqn:Hb.
  - (* a bulk operation *)
    assert (Hnone : forall e, BaseCrud.call_op l o args w = (w, inl e) ->
              (forall items, args <> [VList items]) ->
              exists cs,
                fst (BaseCrud.call_op l o args w) = ran w cs
                /\ (forall c, In c cs -> c_method c = BaseCrud.backend_method o)
                /\ (true = false -> (length cs <= 1)%nat)
                /\ (forall items, true = true -> args = [VList items] ->
                      map c_args cs = map (fun x => [x]) (take (length cs) items)
                      /\ (forall v, snd (BaseCrud.call_op l o args w) = inr v ->
                            length cs = length items))).
    { intros e He Hne. exists []. rewrite ran_nil, He.
      refine (conj eq_refl (conj _ (conj _ _))).
      - intros c [].
      - discriminate.
      - intros items _ Hargs. destruct (Hne items Hargs). }
    destruct args as [|v [|v' args]].
    + apply (Hnone (arity_error
                      match o with
                      | BaseCrud.CreateMany => match l with BaseCrud.Closure => "create_many" | _ => "_create_many" end
                      | BaseCrud.PutMany => match l with BaseCrud.Closure => "put_many" | _ => "_put_many" end
                      | BaseCrud.PatchMany => match l with BaseCrud.Closure => "patch_many" | _ => "_patch_many" end
                      | _ => match l with BaseCrud.Closure => "delete_many" | _ => "_delete_many" end
                      end
                      [match o with BaseCrud.DeleteMany => "uids" | _ => "objs" end]
                      []));
        [destruct l, o; try discriminate; reflexivity | discriminate].
    + rewrite (bulk_unfold l o v w Hb) in Hnone |- *.
      destruct (py_iter v) as [e|xs] eqn:Hv.
      * apply (Hnone e).
        -- reflexivity.
        -- intros items Hi. injection Hi as ->. discriminate.
      * destruct (item_calls o xs w Hb) as (k & Hk & Hfst & Hok).
        exists (trace (storage (self w)) (BaseCrud.backend_method o)
                  (take k xs) (store w)).
        unfold bind at 1. unfold lift. unfold bind, ret.
        destruct (comprehension (item_call o) xs w) as [w' [e|rs]];
          simpl in Hfst, Hok |- *.
        -- refine (conj Hfst (conj _ (conj _ _))).
           ++ apply trace_method.
           ++ discriminate.
           ++ intros items' _ Hi. injection Hi as ->. simpl in Hv.
              injection Hv as ->.
              split; [| discriminate].
              rewrite trace_args, trace_length, length_take.
              rewrite Nat.min_l by lia. reflexivity.
        -- refine (conj Hfst (conj _ (conj _ _))).
           ++ apply trace_method.
           ++ discriminate.
           ++ intros items' _ Hi. injection Hi as ->. simpl in Hv.
              injection Hv as ->.
              split.
              ** rewrite trace_args, trace_length, length_take.
                 rewrite Nat.min_l by lia. reflexivity.
              ** intros v0 _. rewrite trace_length, length_take.
                 rewrite (Hok rs eq_refl). lia.
    + apply (Hnone (arity_error
                      match o with
                      | BaseCrud.CreateMany => match l with BaseCrud.Closure => "create_many" | _ => "_create_many" end
                      | BaseCrud.PutMany => match l with BaseCrud.Closure => "put_many" | _ => "_put_many" end
                      | BaseCrud.PatchMany => match l with BaseCrud.Closure => "patch_many" | _ => "_patch_many" end
                      | _ => match l with BaseCrud.Closure => "delete_many" | _ => "_delete_many" end
                      end
                      [match o with BaseCrud.DeleteMany => "uids" | _ => "objs" end]
                      (v :: v' :: args)));
        [destruct l, o; try discriminate; reflexivity | discriminate].
  - (* an operation on one item *)
    destruct l, o; try discriminate;
      destruct args as [|a [|b [|c [|d args]]]];
      first
        [ (exists []; rewrite ran_nil;
           refine (conj eq_refl (conj _ (conj _ _)));
           [intros ? [] | simpl; lia | discriminate])
        | (eexists [_];
           refine (conj (f_equal fst (storage_call_ran _ _ w)) (conj _ (conj _ _)));
           [ intros ? [<- | []]; reflexivity | simpl; lia | discriminate ]) ].
Qed.
End Operations.

(** ** Errors of the backend, and the frame of every operation *)

Section Contract.
Context {St : Type}.
Implicit Types (w : world St).

(** The calls an operation adds to the log are the backend's own: each entry
    holds what the backend answered on the collection as it was then. *)
Lemma new_calls_genuine (l : BaseCrud.entry) (o : BaseCrud.op)
    (args : list value) w :
  fst (BaseCrud.call_op l o args w)
    = ran w (new_calls w (fst (BaseCrud.call_op l o args w)))
  /\ genuine (storage (self w))
       (new_calls w (fst (BaseCrud.call_op l o args w))) (store w).
Proof.
  destruct (tracked_op l o args w) as (cs & Hfst & Hgen & _).
  rewrite Hfst at 2 3. rewrite new_calls_ran. split; [exact Hfst | exact Hgen].
Qed.

(** C3: for every operation, entered through its closure or its method, on
    any arguments: when a backend call made during the operation raised [e],
    the operation raises that same [e]. *)
Theorem backend_errors_propagate (l : BaseCrud.entry) (o : BaseCrud.op)
    (args : list value) w (c : call) (e : exn) :
  In c (new_calls w (fst (BaseCrud.call_op l o args w))) ->
  c_outcome c = inl e ->
  snd (BaseCrud.call_op l o args w) = inl e.
Proof.
  destruct (tracked_op l o args w) as (cs & Hfst & _ & Herr).
  rewrite Hfst, new_calls_ran. apply Herr.
Qed.

(** C8: an operation leaves the dispatcher's fields as they were; the world
    it leaves is the one in which the backend calls it has logged were made
    and nothing else, so the collection changes through these calls only;
    every such call is a call of the backend method the operation is written
    for; an operation on one item makes at most one call; a bulk operation on
    a list makes its calls on the items of a prefix of the list, one call per
    item in order, and on every item when it returns. *)
Theorem dispatcher_frame (l : BaseCrud.entry) (o : BaseCrud.op)
    (args : list value) w :
  let res := BaseCrud.call_op l o args w in
  let new := new_calls w (fst res) in
  self (fst res) = self w
  /\ fst res = ran w new
  /\ genuine (storage (self w)) new (store w)
  /\ (forall c, In c new -> c_method c = BaseCrud.backend_method o)
  /\ (bulk o = false -> (length new <= 1)%nat)
  /\ (forall items, bulk o = true -> args = [VList items] ->
        map c_args new = map (fun x => [x]) (take (length new) items)
        /\ (forall v, snd res = inr v -> length new = length items)).
Proof.
  intros res new.
  destruct (new_calls_genuine l o args w) as [Hran Hgen].
  destruct (op_calls l o args w) as (cs & Hfst & Hm & Hone & Hbulk).
  assert (Hnew : new = cs) by (subst new res; rewrite Hfst; apply new_calls_ran).
  fold res in Hran. fold new in Hran, Hgen.
  refine (conj _ (conj Hran (conj Hgen _))).
  - rewrite Hran. apply self_ran.
  - rewrite Hnew. refine (conj Hm (conj Hone Hbulk)).
Qed.
End Contract.

Lemma backend_errors_propagate_witness :
  snd (BaseCrud.delete [VStr "nope"] Scenario.w1) = inl NotFound.
Proof.
  apply (backend_errors_propagate BaseCrud.Closure BaseCrud.Delete
           [VStr "nope"] Scenario.w1
           {| c_method := m_delete; c_args := [VStr "nope"];
              c_outcome := inl NotFound |} NotFound).
  - vm_compute. left. reflexivity.
  - reflexivity.
Defined.

Lemma dispatcher_frame_witness :
  let items := [VStr Scenario.id_a; VStr "nope"] in
  let res := BaseCrud.delete_many [VList items] Scenario.w1 in
  map c_args (new_calls Scenario.w1 (fst res))
  = map (fun x => [x]) (take (length (new_calls Scenario.w1 (fst res))) items).
Proof.
  intros items res.
  apply (dispatcher_frame BaseCrud.Closure BaseCrud.DeleteMany
           [VList items] Scenario.w1); reflexivity.
Defined.

(** ** What [__init__] binds *)

(** The closure [create_many] is defined in [__init__] but is not among the
    attributes it assigns (lines 88-96); the router registers no route for
    it either. *)
Lemma create_many_unbound :
  ~ In "create_many" (map fst BaseCrud.bound_attributes)
  /\ forall St (r : CRUDRouter.t St * world St) crud_cls mdl storage_cls settings,
       r = CRUDRouter.__init__ crud_cls mdl storage_cls settings ->
       ~ In BaseCrud.CreateMany (map snd (CRUDRouter.routes (fst r))).
Proof.
  split.
  - simpl. intros H. repeat (destruct H as [H | H]; [discriminate |]). exact H.
  - intros St r crud_cls mdl storage_cls settings ->.
    unfold CRUDRouter.__init__.
    destruct (storage_cls mdl _) as [sto s0]. simpl.
    intros H. repeat (destruct H as [H | H]; [discriminate |]). exact H.
Qed.

(** * Further properties of the dispatcher *)

Section SingleItem.
Context {St : Type}.
Implicit Types (w : world St).

(** X1: [get], [create], [put], [patch] and [delete], called with the
    arguments their signature binds, make exactly one backend call: the
    method of the same name on the same arguments in the same order; what
    the backend answers is the result. *)
Theorem single_op_forwards (l : BaseCrud.entry) (o : BaseCrud.op)
    (args : list value) w :
  bulk o = false -> o <> BaseCrud.GetMany ->
  accepts o (length args) = true ->
  let sr := BaseStorage.attr (storage (self w)) (BaseCrud.backend_method o)
              args (store w) in
  BaseCrud.call_op l o args w
  = (ran w [{| c_method := BaseCrud.backend_method o; c_args := args;
               c_outcome := snd sr |}], snd sr).
Proof.
  intros Hb Hg Ha sr.
  assert (H : BaseCrud.call_op l o args w
              = BaseCrud.storage_call (BaseCrud.backend_method o) args w).
  { destruct l, o; try discriminate; try congruence;
      destruct args as [|a [|b [|c args]]]; try discriminate; reflexivity. }
  rewrite H. subst sr. exact (storage_call_ran (BaseCrud.backend_method o) args w).
Qed.

(** X2: [get_many] hands the operator it is given to the backend as it is,
    whatever it is: the dispatcher does not check it. *)
Theorem get_many_forwards_operator (l : BaseCrud.entry)
    (field val opr : value) w :
  let sr := BaseStorage.get_many (storage (self w)) [field; val; opr] (store w) in
  BaseCrud.call_op l BaseCrud.GetMany [field; val; opr] w
  = (ran w [{| c_method := m_get_many; c_args := [field; val; opr];
               c_outcome := snd sr |}], snd sr).
Proof.
  intros sr.
  assert (H : BaseCrud.call_op l BaseCrud.GetMany [field; val; opr] w
              = BaseCrud.storage_call m_get_many [field; val; opr] w)
    by (destruct l; reflexivity).
  rewrite H. subst sr. exact (storage_call_ran m_get_many [field; val; opr] w).
Qed.

(** X3: an operation called with a number of arguments its signature does
    not bind raises a TypeError and leaves the world as it is: the backend is
    not called. *)
Theorem wrong_arity_raises (l : BaseCrud.entry) (o : BaseCrud.op)
    (args : list value) w :
  accepts o (length args) = false ->
  exists why, BaseCrud.call_op l o args w = (w, inl (TypeError why)).
Proof.
  intros Ha.
  destruct l, o; destruct args as [|a [|b [|c [|d args]]]];
    try discriminate; unfold arity_error; simpl; eexists; reflexivity.
Qed.
End SingleItem.

Lemma single_op_forwards_witness :
  BaseCrud.put [VStr Scenario.id_a; VObj Scenario.record_b] Scenario.w1
  = (let sr := BaseStorage.put (storage (self Scenario.w1))
                 [VStr Scenario.id_a; VObj Scenario.record_b]
                 (store Scenario.w1) in
     (ran Scenario.w1
        [{| c_method := m_put;
            c_args := [VStr Scenario.id_a; VObj Scenario.record_b];
            c_outcome := snd sr |}], snd sr)).
Proof.
  apply (single_op_forwards BaseCrud.Closure BaseCrud.Put
           [VStr Scenario.id_a; VObj Scenario.record_b] Scenario.w1);
    [reflexivity | discriminate | reflexivity].
Defined.

Lemma wrong_arity_raises_witness :
  exists why,
    BaseCrud.put [VObj Scenario.record_b] Scenario.w1
    = (Scenario.w1, inl (TypeError why)).
Proof.
  apply (wrong_arity_raises BaseCrud.Closure BaseCrud.Put
           [VObj Scenario.record_b] Scenario.w1). reflexivity.
Defined.

Section BulkMore.
Context {St : Type}.
Implicit Types (w : world St) (xs ys : list value).

(** A bulk operation on a list is the comprehension of its body. *)
Lemma bulk_list (l : BaseCrud.entry) (o : BaseCrud.op) xs w :
  bulk o = true ->
  BaseCrud.call_op l o [VList xs] w
  = match comprehension (item_call o) xs w with
    | (w', inr rs) => (w', inr (VList rs))
    | (w', inl e) => (w', inl e)
    end.
Proof. intros Hb. rewrite (bulk_unfold l o (VList xs) w Hb). reflexivity. Qed.

Lemma item_call_storage (o : BaseCrud.op) :
  o = BaseCrud.CreateMany \/ o = BaseCrud.DeleteMany ->
  forall y, item_call (St := St) o y
            = BaseCrud.storage_call (BaseCrud.backend_method o) [y].
Proof. intros [-> | ->] y; reflexivity. Qed.

(** X4: every bulk operation returns the empty list on the empty list and
    leaves the world as it is. *)
Theorem bulk_empty (l : BaseCrud.entry) (o : BaseCrud.op) w :
  bulk o = true ->
  BaseCrud.call_op l o [VList []] w = (w, inr (VList [])).
Proof. intros Hb. rewrite (bulk_list l o [] w Hb). reflexivity. Qed.

(** X5: [put_many] and [patch_many] return on the empty list and on no
    other list. *)
Theorem update_many_returns_iff_empty (l : BaseCrud.entry) (o : BaseCrud.op)
    (items : list value) w :
  o = BaseCrud.PutMany \/ o = BaseCrud.PatchMany ->
  (exists v, snd (BaseCrud.call_op l o [VList items] w) = inr v)
  <-> items = [].
Proof.
  intros Ho. assert (Hb : bulk o = true) by (destruct Ho; subst; reflexivity).
  split.
  - intros [v Hv]. destruct items as [|x items]; [reflexivity |].
    rewrite (bulk_list l o (x :: items) w Hb) in Hv.
    destruct Ho; subst o; discriminate.
  - intros ->. rewrite (bulk_empty l o w Hb). eexists; reflexivity.
Qed.

(** X6: [delete_many(uids)], entered either way, calls the backend's
    [delete] on the identifiers one by one in the order of [uids], each call
    on the collection the call before it has left.  When the call at
    position [i] is the first to fail, the calls made are those for
    positions [0..i], the collection is the one these calls have left, and
    the error of that call is the result; when no call fails there is one
    call per identifier and the result is the list of what they returned. *)
Theorem delete_many_sequential (l : BaseCrud.entry) (uids : list value) w :
  let sto := storage (self w) in
  let tr := trace sto m_delete uids (store w) in
  (forall i e,
      c_outcome <$> tr !! i = Some (inl e) ->
      (forall j c, (j < i)%nat -> tr !! j = Some c -> succeeded c) ->
      BaseCrud.call_op l BaseCrud.DeleteMany [VList uids] w
      = (ran w (trace sto m_delete (take (S i) uids) (store w)), inl e))
  /\ ((forall c, In c tr -> succeeded c) ->
      BaseCrud.call_op l BaseCrud.DeleteMany [VList uids] w
      = (ran w tr, inr (VList (returned tr)))).
Proof.
  intros sto tr. rewrite (bulk_list l BaseCrud.DeleteMany uids w eq_refl).
  split.
  - intros i e Hi Hlt.
    now rewrite (comprehension_fail m_delete (item_call BaseCrud.DeleteMany)
                   uids w i e (fun _ => eq_refl) Hi Hlt).
  - intros Hall.
    now rewrite (comprehension_ok m_delete (item_call BaseCrud.DeleteMany)
                   uids w (fun _ => eq_refl) Hall).
Qed.

(** A comprehension over a concatenation is the comprehension over the
    first list followed, when that returns, by the one over the second. *)
Lemma comprehension_app (f : value -> M St value) xs ys : forall w,
  comprehension f (xs ++ ys) w
  = match comprehension f xs w with
    | (w1, inr rs1) =>
        match comprehension f ys w1 with
        | (w2, inr rs2) => (w2, inr (rs1 ++ rs2))
        | (w2, inl e) => (w2, inl e)
        end
    | (w1, inl e) => (w1, inl e)
    end.
Proof.
  induction xs as [|x xs IH]; intros w.
  - simpl. destruct (comprehension f ys w) as [w2 [e|rs2]]; reflexivity.
  - simpl. unfold bind, ret. destruct (f x w) as [w' [e|r]]; [reflexivity |].
    rewrite IH.
    destruct (comprehension f xs w') as [w1 [e|rs1]]; [reflexivity |].
    destruct (comprehension f ys w1) as [w2 [e|rs2]]; reflexivity.
Qed.

(** X7: a batch can be split.  A bulk operation on [xs ++ ys] that fails
    within [xs] is the operation on [xs]; when the operation on [xs]
    returns, it is the operation on [ys] run in the world the first has
    left, with the two result lists joined. *)
Theorem bulk_split (l : BaseCrud.entry) (o : BaseCrud.op) xs ys w :
  bulk o = true ->
  (forall e, snd (BaseCrud.call_op l o [VList xs] w) = inl e ->
     BaseCrud.call_op l o [VList (xs ++ ys)] w
     = BaseCrud.call_op l o [VList xs] w)
  /\ (forall rs1, snd (BaseCrud.call_op l o [VList xs] w) = inr (VList rs1) ->
        BaseCrud.call_op l o [VList (xs ++ ys)] w
        = match BaseCrud.call_op l o [VList ys]
                  (fst (BaseCrud.call_op l o [VList xs] w)) with
          | (w2, inr (VList rs2)) => (w2, inr (VList (rs1 ++ rs2)))
          | (w2, r) => (w2, r)
          end).
Proof.
  intros Hb. rewrite !(bulk_list l o _ _ Hb), comprehension_app.
  destruct (comprehension (item_call o) xs w) as [w1 [e|rs]]; simpl.
  - split; [reflexivity | discriminate].
  - split; [discriminate |]. intros rs1 Hrs. injection Hrs as <-.
    destruct (comprehension (item_call o) ys w1) as [w2 [e|rs2]]; reflexivity.
Qed.

Lemma comprehension_one (f : value -> M St value) (x : value) w :
  comprehension f [x] w
  = match f x w with
    | (w', inr r) => (w', inr [r])
    | (w', inl e) => (w', inl e)
    end.
Proof. simpl. unfold bind, ret. destruct (f x w) as [w' [e|r]]; reflexivity. Qed.

(** X8: [create_many] on one record is [create] on that record, and
    [delete_many] on one identifier is [delete] on that identifier, with the
    result in a list of one. *)
Theorem bulk_singleton (l l' : BaseCrud.entry) (x : value) w :
  BaseCrud.call_op l BaseCrud.CreateMany [VList [x]] w
  = match BaseCrud.call_op l' BaseCrud.Create [x] w with
    | (w', inr r) => (w', inr (VList [r]))
    | (w', inl e) => (w', inl e)
    end
  /\ BaseCrud.call_op l BaseCrud.DeleteMany [VList [x]] w
  = match BaseCrud.call_op l' BaseCrud.Delete [x] w with
    | (w', inr r) => (w', inr (VList [r]))
    | (w', inl e) => (w', inl e)
    end.
Proof.
  rewrite (bulk_list l BaseCrud.CreateMany [x] w eq_refl),
    (bulk_list l BaseCrud.DeleteMany [x] w eq_refl), !comprehension_one.
  split.
  - assert (H : BaseCrud.call_op l' BaseCrud.Create [x] w
                = item_call BaseCrud.CreateMany x w)
      by (destruct l'; reflexivity).
    rewrite H.
    destruct (item_call BaseCrud.CreateMany x w) as [w' [e|r]]; reflexivity.
  - assert (H : BaseCrud.call_op l' BaseCrud.Delete [x] w
                = item_call BaseCrud.DeleteMany x w)
      by (destruct l'; reflexivity).
    rewrite H.
    destruct (item_call BaseCrud.DeleteMany x w) as [w' [e|r]]; reflexivity.
Qed.
End BulkMore.

Lemma bulk_empty_witness :
  BaseCrud.put_many [VList []] Scenario.w1 = (Scenario.w1, inr (VList [])).
Proof.
  apply (bulk_empty BaseCrud.Closure BaseCrud.PutMany Scenario.w1).
  reflexivity.
Defined.

Lemma update_many_returns_iff_empty_witness :
  (exists v, snd (BaseCrud.patch_many [VList [VObj Scenario.record_a]]
                    Scenario.w1) = inr v)
  <-> [VObj Scenario.record_a] = [].
Proof.
  apply (update_many_returns_iff_empty BaseCrud.Closure BaseCrud.PatchMany
           [VObj Scenario.record_a] Scenario.w1).
  right. reflexivity.
Defined.

Lemma delete_many_sequential_witness :
  let uids := [VStr Scenario.id_a; VStr "nope"; VStr Scenario.id_b] in
  let res := BaseCrud.delete_many [VList uids] Scenario.w1 in
  snd res = inl NotFound
  /\ length (new_calls Scenario.w1 (fst res)) = 2%nat.
Proof.
  intros uids res.
  assert (H : res
    = (ran Scenario.w1
         (trace (storage (self Scenario.w1)) m_delete (take 2 uids)
            (store Scenario.w1)), inl NotFound)).
  { apply (delete_many_sequential BaseCrud.Closure uids Scenario.w1).
    - vm_compute; reflexivity.
    - intros j c Hj Hc. destruct j as [|j]; [| lia].
      vm_compute in Hc. injection Hc as <-. eexists; reflexivity. }
  rewrite H. split; vm_compute; reflexivity.
Defined.

Lemma bulk_split_witness :
  snd (BaseCrud.call_op BaseCrud.Closure BaseCrud.CreateMany
         [VList ([VObj Scenario.record_a]
                 ++ [VObj Scenario.record_a; VObj Scenario.record_b])]
         Scenario.w0) = inl Conflict.
Proof.
  rewrite (proj2 (bulk_split BaseCrud.Closure BaseCrud.CreateMany
                    [VObj Scenario.record_a]
                    [VObj Scenario.record_a; VObj Scenario.record_b]
                    Scenario.w0 eq_refl)
             [VObj Scenario.record_a]);
    vm_compute; reflexivity.
Defined.

Section Results.
Context {St : Type}.
Implicit Types (w : world St) (xs : list value).

Lemma returned_length (cs : list call) :
  (forall c, In c cs -> succeeded c) -> length (returned cs) = length cs.
Proof.
  induction cs as [|c cs IH]; intros Hall; [reflexivity |].
  destruct (Hall c (or_introl eq_refl)) as [v Hv].
  unfold returned. simpl. rewrite Hv. simpl. f_equal.
  apply IH. intros c' Hc'. apply Hall. right. exact Hc'.
Qed.

(** A comprehension over backend calls returns only when every call has. *)
Lemma comprehension_returns m (f : value -> M St value) xs : forall w rs,
  (forall y, f y = BaseCrud.storage_call m [y]) ->
  snd (comprehension f xs w) = inr rs ->
  forall c, In c (trace (storage (self w)) m xs (store w)) -> succeeded c.
Proof.
  induction xs as [|x xs IH]; intros w rs Hf Hrs c Hc; [destruct Hc |].
  rewrite (comprehension_step m f x xs w Hf) in Hrs.
  simpl in Hc.
  destruct (snd (BaseStorage.attr (storage (self w)) m [x] (store w)))
    as [e|v] eqn:Hsr; [discriminate |].
  destruct Hc as [<- | Hc]; [exists v; reflexivity |].
  set (c0 := {| c_method := m; c_args := [x]; c_outcome := inr v |}) in Hrs.
  destruct (comprehension f xs (ran w [c0])) as [w' [e|rs']] eqn:Hcomp;
    [discriminate |].
  apply (IH (ran w [c0]) rs' Hf); [rewrite Hcomp; reflexivity |].
  exact Hc.
Qed.

(** X9: when a bulk operation returns, its result is the list of what its
    backend calls returned, in the order of the calls: one result per item
    of the input, and no call has failed. *)
Theorem bulk_result_aligned (l : BaseCrud.entry) (o : BaseCrud.op)
    (items : list value) w (v : value) :
  bulk o = true ->
  snd (BaseCrud.call_op l o [VList items] w) = inr v ->
  let new := new_calls w (fst (BaseCrud.call_op l o [VList items] w)) in
  v = VList (returned new)
  /\ length (returned new) = length items
  /\ (forall c, In c new -> succeeded c).
Proof.
  intros Hb Hv new.
  assert (Ho : (o = BaseCrud.CreateMany \/ o = BaseCrud.DeleteMany)
               \/ (o = BaseCrud.PutMany \/ o = BaseCrud.PatchMany))
    by (destruct o; try discriminate; tauto).
  destruct Ho as [Ho | Ho].
  - pose proof (item_call_storage (St := St) o Ho) as Hf.
    subst new. rewrite (bulk_list l o items w Hb) in Hv |- *.
    assert (Hall : forall c,
              In c (trace (storage (self w)) (BaseCrud.backend_method o)
                      items (store w)) -> succeeded c).
    { destruct (comprehension (item_call o) items w) as [w' [e|rs]] eqn:Hc;
        [discriminate |].
      apply (comprehension_returns _ (item_call o) items w rs Hf).
      rewrite Hc. reflexivity. }
    rewrite (comprehension_ok _ (item_call o) items w Hf Hall) in Hv |- *.
    simpl in Hv |- *. rewrite new_calls_ran. injection Hv as <-.
    split; [reflexivity |]. split; [| exact Hall].
    rewrite (returned_length _ Hall). apply trace_length.
  - assert (Hi : items = []).
    { apply (update_many_returns_iff_empty l o items w Ho). eauto. }
    subst new items. rewrite (bulk_empty l o w Hb) in Hv |- *.
    injection Hv as <-. simpl. unfold new_calls. rewrite drop_all.
    split; [reflexivity |]. split; [reflexivity | intros c []].
Qed.
End Results.

Lemma bulk_result_aligned_witness :
  let items := [VObj Scenario.record_a; VObj Scenario.record_b] in
  let res := BaseCrud.create_many [VList items] Scenario.w0 in
  length (returned (new_calls Scenario.w0 (fst res))) = length items.
Proof.
  intros items res.
  apply (bulk_result_aligned BaseCrud.Closure BaseCrud.CreateMany items
           Scenario.w0 (VList items)); [reflexivity |].
  vm_compute; reflexivity.
Defined.

(** * Further properties of the router *)

Section Router.
Context {St : Type}.

(** X10: the router builds one storage, from the model and the settings (an
    empty mapping when none are given), and everything it sets up uses that
    one: the dispatcher it constructs holds this storage and the router's
    model, and the startup and shutdown hooks are this storage's [start] and
    [stop]. *)
Theorem router_wiring (mdl : option pyclass)
    (storage_cls : option pyclass -> list (string * string) -> BaseStorage.t St * St)
    (settings : option (list (string * string))) :
  let built := CRUDRouter.__init__ BaseCrud.__init__ mdl storage_cls settings in
  let r := fst built in
  (CRUDRouter.storage r, store (snd built))
    = storage_cls mdl (match settings with Some d => d | None => [] end)
  /\ CRUDRouter.model r = mdl
  /\ self (snd built) = CRUDRouter.crud r
  /\ storage (CRUDRouter.crud r) = CRUDRouter.storage r
  /\ model (CRUDRouter.crud r) = CRUDRouter.model r
  /\ CRUDRouter.on_startup r = [BaseStorage.start (CRUDRouter.storage r)]
  /\ CRUDRouter.on_shutdown r = [BaseStorage.stop (CRUDRouter.storage r)].
Proof.
  unfold CRUDRouter.__init__.
  destruct (storage_cls mdl _) as [sto s0]. simpl. repeat split.
Qed.

(** X11: the routes of a router, whatever it was built with: no two routes
    share a verb and a path; every operation of the dispatcher except
    [create_many] has a route, and only one; the operations on one record
    are on the item path ["/{oid}"], the others on ["/"]. *)
Theorem routes_table
    (crud_cls : option pyclass -> BaseStorage.t St -> crud_fields St)
    (mdl : option pyclass)
    (storage_cls : option pyclass -> list (string * string) -> BaseStorage.t St * St)
    (settings : option (list (string * string))) :
  let rs := CRUDRouter.routes
              (fst (CRUDRouter.__init__ crud_cls mdl storage_cls settings)) in
  List.NoDup (map fst rs)
  /\ List.NoDup (map snd rs)
  /\ (forall o, In o (map snd rs) <-> o <> BaseCrud.CreateMany)
  /\ (forall v p o, In (v, p, o) rs ->
        p = if on_item o then "/{oid}" else "/").
Proof.
  unfold CRUDRouter.__init__.
  destruct (storage_cls mdl _) as [sto s0]. simpl.
  refine (conj _ (conj _ (conj _ _))).
  - repeat (apply List.NoDup_cons; [simpl; intuition congruence |]).
    apply List.NoDup_nil.
  - repeat (apply List.NoDup_cons; [simpl; intuition congruence |]).
    apply List.NoDup_nil.
  - intros o. destruct o; simpl; split; intros H;
      try congruence; try tauto; intuition congruence.
  - intros v p o H.
    repeat (destruct H as [H | H]; [injection H as <- <- <-; reflexivity |]).
    destruct H.
Qed.

End Router.

(** * Further properties of the model *)

(** X14: the fields given to the constructor are the fields of the record it
    returns, and a given identifier of a returned record is a version-1
    UUID. *)
Theorem given_fields_kept {Env} (rt : runtime Env)
    (kw_uid : option UUID) (kw_created_on kw_modify_on : option datetime)
    (e : Env) (r : BaseCrudModel) :
  snd (BaseCrudModel_new rt kw_uid kw_created_on kw_modify_on e) = inr r ->
  (forall u, kw_uid = Some u -> uid r = u /\ uuid_version u = Some 1)
  /\ (forall c, kw_created_on = Some c -> created_on r = c)
  /\ (forall m, kw_modify_on = Some m -> modify_on r = m).
Proof.
  unfold BaseCrudModel_new.
  destruct (field_value (uuid1 rt) kw_uid e) as [u e1] eqn:Hu.
  destruct (field_value (now rt) kw_created_on e1) as [c e2] eqn:Hc.
  destruct (field_value (now rt) kw_modify_on e2) as [m e3] eqn:Hm.
  destruct (valid_uid kw_uid) eqn:Hvalid; [| discriminate].
  unfold snd. intros Hr. injection Hr as <-.
  unfold field_value in Hu, Hc, Hm. unfold valid_uid in Hvalid.
  refine (conj _ (conj _ _)).
  - intros u' ->. injection Hu as <- _.
    split; [reflexivity |].
    destruct (uuid_version u') as [v|]; [| discriminate].
    apply Z.eqb_eq in Hvalid. now subst v.
  - intros c' ->. now injection Hc as <- _.
  - intros m' ->. now injection Hm as <- _.
Qed.

Lemma given_fields_kept_witness :
  let r := {| uid := fst (SimRuntime.uuid1 1000);
              created_on := 7; modify_on := 100 |} in
  snd (BaseCrudModel_new SimRuntime.rt None (Some 7) None 1000) = inr r
  /\ created_on r = 7.
Proof.
  intros r.
  assert (H : snd (BaseCrudModel_new SimRuntime.rt None (Some 7) None 1000)
              = inr r) by (vm_compute; reflexivity).
  split; [exact H |].
  exact (proj1 (proj2 (given_fields_kept SimRuntime.rt None (Some 7) None
                         1000 r H)) 7 eq_refl).
Defined.

(** X15: an identifier given to the constructor that is not a version-1
    UUID is refused with a ValidationError on [uid], whatever else is
    given. *)
Theorem uid_not_v1_rejected {Env} (rt : runtime Env) (u : UUID)
    (kw_created_on kw_modify_on : option datetime) (e : Env) :
  uuid_version u <> Some 1 ->
  snd (BaseCrudModel_new rt (Some u) kw_created_on kw_modify_on e)
  = inl (ValidationError "uid").
Proof.
  intros Hv. unfold BaseCrudModel_new, valid_uid.
  unfold field_value at 1.
  destruct (field_value (now rt) kw_created_on e) as [c e2].
  destruct (field_value (now rt) kw_modify_on e2) as [m e3].
  destruct (uuid_version u) as [v|]; [| reflexivity].
  destruct (Z.eqb_spec v 1) as [-> | _]; [now destruct Hv | reflexivity].
Qed.

Lemma uid_not_v1_rejected_witness :
  snd (BaseCrudModel_new SimRuntime.rt (Some (Z.shiftl 1 76)) None None 1000)
  = inl (ValidationError "uid").
Proof.
  apply (uid_not_v1_rejected SimRuntime.rt (Z.shiftl 1 76) None None 1000).
  vm_compute. discriminate.
Defined.

(** * Further properties: the first failure ends an operation *)

Section Halting.
Context {St : Type}.
Implicit Types (w : world St).

Lemma halting_quiet {A} (m : M St A) :
  (forall w, fst (m w) = w) -> halting m.
Proof.
  intros Hm w. exists []. rewrite ran_nil. split; [apply Hm |].
  left. intros c [].
Qed.

Lemma halting_storage_call (m : method) (args : list value) :
  halting (St := St) (BaseCrud.storage_call m args).
Proof.
  intros w. rewrite storage_call_ran. eexists [_]. split; [reflexivity |].
  simpl.
  destruct (snd (BaseStorage.attr (storage (self w)) m args (store w)))
    as [e|v] eqn:Hsr.
  - right. exists [], {| c_method := m; c_args := args; c_outcome := inl e |}, e.
    repeat split. intros c' [].
  - left. intros c [<- | []]. exists v. reflexivity.
Qed.

Lemma halting_bind {A B} (m : M St A) (k : A -> M St B) :
  halting m -> (forall a, halting (k a)) -> halting (bind m k).
Proof.
  intros Hm Hk w. destruct (Hm w) as (cs1 & H1 & D1). unfold bind.
  destruct (m w) as [w1 [e|a]]; simpl in H1, D1.
  - exists cs1. split; [exact H1 |].
    destruct D1 as [Hall | (pre & c & e' & Hcs & Hpre & Hc & He)];
      [left; exact Hall |].
    right. exists pre, c, e'. injection He as ->. auto.
  - subst w1. destruct D1 as [Hall | (pre & c & e' & _ & _ & _ & He)];
      [| discriminate].
    destruct (Hk a (ran w cs1)) as (cs2 & H2 & D2).
    exists (cs1 ++ cs2). rewrite H2, ran_ran. split; [reflexivity |].
    destruct D2 as [Hall2 | (pre & c & e' & Hcs & Hpre & Hc & He)].
    + left. intros c Hc. apply in_app_or in Hc as [Hc | Hc]; auto.
    + right. exists (cs1 ++ pre), c, e'. subst cs2.
      rewrite app_assoc. repeat split; auto.
      intros c' Hc'. apply in_app_or in Hc' as [Hc' | Hc']; auto.
Qed.

Lemma halting_comprehension (f : value -> M St value) (xs : list value) :
  (forall x, halting (f x)) -> halting (comprehension f xs).
Proof.
  intros Hf. induction xs as [|x xs IH]; simpl.
  - apply halting_quiet. reflexivity.
  - apply halting_bind; [apply Hf | intros r].
    apply halting_bind; [exact IH | intros rs].
    apply halting_quiet. reflexivity.
Qed.

Ltac halting_steps :=
  repeat first
    [ apply halting_storage_call
    | apply halting_comprehension; intros ?
    | apply halting_bind; [| intros ?]
    | apply halting_quiet; reflexivity ].

Lemma halting_op (l : BaseCrud.entry) (o : BaseCrud.op) (args : list value) :
  halting (St := St) (BaseCrud.call_op l o args).
Proof.
  destruct l, o; destruct args as [|a [|b [|c [|d args]]]];
    unfold BaseCrud.call_op, BaseCrud.closure, BaseCrud.private,
      BaseCrud.get, BaseCrud.get_many, BaseCrud.create, BaseCrud.create_many,
      BaseCrud.put, BaseCrud.put_many, BaseCrud.patch, BaseCrud.patch_many,
      BaseCrud.delete, BaseCrud.delete_many,
      BaseCrud._get, BaseCrud._get_many, BaseCrud._create,
      BaseCrud._create_many, BaseCrud._put, BaseCrud._put_many,
      BaseCrud._patch, BaseCrud._patch_many, BaseCrud._delete,
      BaseCrud._delete_many, BaseCrud.run_async_or_sync;
    halting_steps.
Qed.

(** X16: in every operation, on any arguments, a backend call that fails is
    the last call the operation makes, and every call before it has
    returned: nothing is sent to the backend after a failure. *)
Theorem failed_call_is_last (l : BaseCrud.entry) (o : BaseCrud.op)
    (args : list value) w (pre post : list call) (c : call) (e : exn) :
  new_calls w (fst (BaseCrud.call_op l o args w)) = pre ++ c :: post ->
  c_outcome c = inl e ->
  post = [] /\ (forall c', In c' pre -> succeeded c').
Proof.
  destruct (halting_op l o args w) as (cs & Hfst & D).
  rewrite Hfst, new_calls_ran. intros -> Hc.
  assert (Hbad : ~ succeeded c) by (intros [v Hv]; congruence).
  destruct D as [Hall | (pre' & c' & e' & Hcs & Hpre & _ & _)].
  - destruct Hbad. apply Hall. apply in_or_app. right. left. reflexivity.
  - destruct post as [|p post] using rev_ind.
    + apply app_inj_tail in Hcs as [-> _]. auto.
    + clear IHpost. rewrite app_comm_cons, app_assoc in Hcs.
      apply app_inj_tail in Hcs as [<- _].
      destruct Hbad. apply Hpre. apply in_or_app. right. left. reflexivity.
Qed.
End Halting.

Lemma failed_call_is_last_witness :
  ([] : list call) = []
  /\ succeeded {| c_method := m_delete; c_args := [VStr Scenario.id_a];
                  c_outcome := inr (VObj Scenario.record_a) |}.
Proof.
  cut (([] : list call) = []
       /\ (forall c',
             In c' [{| c_method := m_delete; c_args := [VStr Scenario.id_a];
                       c_outcome := inr (VObj Scenario.record_a) |}] ->
             succeeded c')).
  { intros [H1 H2]. split; [exact H1 | apply H2; left; reflexivity]. }
  apply (failed_call_is_last BaseCrud.Closure BaseCrud.DeleteMany
           [VList [VStr Scenario.id_a; VStr "nope"; VStr Scenario.id_b]]
           Scenario.w1
           [{| c_method := m_delete; c_args := [VStr Scenario.id_a];
               c_outcome := inr (VObj Scenario.record_a) |}]
           []
           {| c_method := m_delete; c_args := [VStr "nope"];
              c_outcome := inl NotFound |} NotFound);
    [vm_compute; reflexivity | reflexivity].
Defined.

(** * Further properties: what [__init__] binds *)

(** X17: the attributes [BaseCrud.__init__] assigns (lines 88-96) have
    distinct names; every operation except [create_many] is bound, under one
    name only. *)
Theorem bound_attributes_table :
  List.NoDup (map fst BaseCrud.bound_attributes)
  /\ List.NoDup (map snd BaseCrud.bound_attributes)
  /\ (forall o, In o (map snd BaseCrud.bound_attributes)
                <-> o <> BaseCrud.CreateMany).
Proof.
  refine (conj _ (conj _ _)).
  - repeat (apply List.NoDup_cons; [simpl; intuition congruence |]).
    apply List.NoDup_nil.
  - repeat (apply List.NoDup_cons; [simpl; intuition congruence |]).
    apply List.NoDup_nil.
  - intros o. destruct o; simpl; split; intros H;
      try congruence; try tauto; intuition congruence.
Qed.
